(** * wetype-hotwords: recovery and mutation of the [hotWordList] value

    A shallow embedding of [wetype_raw.py], [wetype_rw.py] and
    [wetype_tool.py].  Python [str] values are lists of code points, Python
    [int] values are [Z], exceptions are an explicit result type, and the
    calls into the [json] module are modelled by a decoder and an encoder
    that follow [json.decoder] and [json.encoder]. *)

From Stdlib Require Import ZArith NArith List String Ascii Lia Bool.
From Stdlib Require Import SpecFloat DecimalN DecimalZ DecimalFacts.
From stdpp Require Import base option list gmap.
Import ListNotations.

Set Warnings "-register-all".
Local Open Scope N_scope.

(** ** Python strings *)

(** A Python [str] is a sequence of Unicode code points. *)
Abbreviation char := N (only parsing).
Abbreviation str := (list N) (only parsing).

Definition chr (a : ascii) : char := N_of_ascii a.

(** [s2l] reads an ASCII literal; [jlit] does the same and lets an
    apostrophe stand for the double quote, so that JSON text can be written
    inside a literal. *)
Definition s2l (s : string) : str := map chr (list_ascii_of_string s).

Definition QUOTE : char := 34.
Definition BACKSLASH : char := 92.
Definition APOSTROPHE : char := 39.

Definition jlit (s : string) : str :=
  map (fun c => if N.eqb c APOSTROPHE then QUOTE else c) (s2l s).

Definition LBRACKET : char := Eval cbv in chr "[".
Definition RBRACKET : char := Eval cbv in chr "]".
Definition LBRACE : char := Eval cbv in chr "{".
Definition RBRACE : char := Eval cbv in chr "}".
Definition COMMA : char := Eval cbv in chr ",".
Definition COLON : char := Eval cbv in chr ":".
Definition MINUS : char := Eval cbv in chr "-".
Definition PLUS : char := Eval cbv in chr "+".
Definition DOT : char := Eval cbv in chr ".".
Definition SPACE : char := Eval cbv in chr " ".
Definition ZERO : char := Eval cbv in chr "0".

Definition str_eqb (a b : str) : bool := bool_decide (a = b).

(** [s.startswith(p)], as the remainder after the prefix. *)
Fixpoint strip_prefix (p s : str) : option str :=
  match p, s with
  | [], _ => Some s
  | _ :: _, [] => None
  | a :: p', b :: s' => if N.eqb a b then strip_prefix p' s' else None
  end.

Definition startswith (s p : str) : bool :=
  match strip_prefix p s with Some _ => true | None => false end.

(** ** Exceptions *)

Inductive exn : Type :=
| JSONDecodeError
| RecursionError
| AttributeError
| TypeError
| KeyError.

Inductive res (A : Type) : Type :=
| Ok (a : A)
| Raise (e : exn).
Arguments Ok {A} a.
Arguments Raise {A} e.

Definition res_bind {A B} (k : A -> res B) (m : res A) : res B :=
  match m with
  | Ok a => k a
  | Raise e => Raise e
  end.

#[global] Instance res_mbind : MBind res := @res_bind.
#[global] Instance res_mret : MRet res := @Ok.

(** ** JSON values, as [json.loads] builds them *)

Module Json.

(** Python floats are IEEE binary64 values. *)
Definition prec : Z := 53.
Definition emax : Z := 1024.

(** A [dict] keeps its keys in insertion order; keys decoded from JSON are
    always strings. *)
Inductive json : Type :=
| JNull
| JBool (b : bool)
| JInt (z : Z)
| JFloat (f : spec_float)
| JStr (s : str)
| JList (l : list json)
| JDict (d : list (str * json)).

(** [d[k] = v]: an existing key keeps its position. *)
Fixpoint dict_set (d : list (str * json)) (k : str) (v : json)
  : list (str * json) :=
  match d with
  | [] => [(k, v)]
  | (k', v') :: d' =>
      if str_eqb k' k then (k', v) :: d' else (k', v') :: dict_set d' k v
  end.

(** [d.get(k)], [None] when the key is absent. *)
Fixpoint dict_get (d : list (str * json)) (k : str) : option json :=
  match d with
  | [] => None
  | (k', v') :: d' => if str_eqb k' k then Some v' else dict_get d' k
  end.

(** [k in d]. *)
Definition dict_mem (d : list (str * json)) (k : str) : bool :=
  match dict_get d k with Some _ => true | None => false end.

(** [dict(pairs)]. *)
Definition dict_of_pairs (pairs : list (str * json)) : list (str * json) :=
  fold_left (fun d kv => dict_set d (fst kv) (snd kv)) pairs [].

(** *** The decoder *)

(** Outcome of a scanning function: a value and the rest of the input, a
    decoding error, or nesting deeper than the recursion budget. *)
Inductive pres (A : Type) : Type :=
| POk (a : A)
| PErr
| PDeep.
Arguments POk {A} a.
Arguments PErr {A}.
Arguments PDeep {A}.

Definition pbind {A B} (k : A -> pres B) (m : pres A) : pres B :=
  match m with
  | POk a => k a
  | PErr => PErr
  | PDeep => PDeep
  end.

#[global] Instance pres_mbind : MBind pres := @pbind.

(** [WHITESPACE = '[ \t\n\r]*']. *)
Definition is_ws (c : char) : bool :=
  N.eqb c 32 || N.eqb c 9 || N.eqb c 10 || N.eqb c 13.

Fixpoint skip_ws (s : str) : str :=
  match s with
  | c :: r => if is_ws c then skip_ws r else s
  | [] => []
  end.

Definition is_digit (c : char) : bool := N.leb 48 c && N.leb c 57.

Definition hex_val (c : char) : option N :=
  if N.leb 48 c && N.leb c 57 then Some (c - 48)
  else if N.leb 97 c && N.leb c 102 then Some (c - 87)
  else if N.leb 65 c && N.leb c 70 then Some (c - 55)
  else None.

(** [_decode_uXXXX]: four hexadecimal digits. *)
Definition decode_uXXXX (h1 h2 h3 h4 : char) : option N :=
  match hex_val h1, hex_val h2, hex_val h3, hex_val h4 with
  | Some a, Some b, Some c, Some d => Some (((a * 16 + b) * 16 + c) * 16 + d)
  | _, _, _, _ => None
  end.

Definition is_high_surrogate (u : N) : bool :=
  N.leb 55296 u && N.leb u 56319.
Definition is_low_surrogate (u : N) : bool :=
  N.leb 56320 u && N.leb u 57343.
Definition join_surrogates (u u2 : N) : N :=
  65536 + N.lor (N.shiftl (u - 55296) 10) (u2 - 56320).

(** The [BACKSLASH] table of [json.decoder]. *)
Definition backslash_char (esc : char) : option char :=
  if N.eqb esc QUOTE then Some QUOTE
  else if N.eqb esc BACKSLASH then Some BACKSLASH
  else if N.eqb esc 47 then Some 47
  else if N.eqb esc 98 then Some 8
  else if N.eqb esc 102 then Some 12
  else if N.eqb esc 110 then Some 10
  else if N.eqb esc 114 then Some 13
  else if N.eqb esc 116 then Some 9
  else None.

Definition pcons (c : char) (m : pres (str * str)) : pres (str * str) :=
  p ← m; POk (c :: fst p, snd p).

(** [scanstring(s, end, strict=True)], started after the opening quote:
    the decoded string and the input after the closing quote. *)
Fixpoint scanstring (s : str) : pres (str * str) :=
  match s with
  | [] => PErr
  | c :: r =>
      if N.eqb c QUOTE then POk ([], r)
      else if N.eqb c BACKSLASH then
        match r with
        | [] => PErr
        | esc :: r1 =>
            if N.eqb esc 117 then
              match r1 with
              | h1 :: h2 :: h3 :: h4 :: r2 =>
                  match decode_uXXXX h1 h2 h3 h4 with
                  | None => PErr
                  | Some uni =>
                      match r2 with
                      | b :: u :: g1 :: g2 :: g3 :: g4 :: r3 =>
                          if is_high_surrogate uni && N.eqb b BACKSLASH
                             && N.eqb u 117 then
                            match decode_uXXXX g1 g2 g3 g4 with
                            | None => PErr
                            | Some uni2 =>
                                if is_low_surrogate uni2
                                then pcons (join_surrogates uni uni2)
                                           (scanstring r3)
                                else pcons uni (scanstring r2)
                            end
                          else pcons uni (scanstring r2)
                      | _ => pcons uni (scanstring r2)
                      end
                  end
              | _ => PErr
              end
            else
              match backslash_char esc with
              | Some ch => pcons ch (scanstring r1)
              | None => PErr
              end
        end
      else if N.ltb c 32 then PErr
      else pcons c (scanstring r)
  end.

(** Longest prefix of decimal digits. *)
Fixpoint span_digits (s : str) : str * str :=
  match s with
  | c :: r =>
      if is_digit c then let '(ds, r') := span_digits r in (c :: ds, r')
      else ([], s)
  | [] => ([], [])
  end.

(** [int(digits)] for a string of decimal digits. *)
Definition digit_step (acc : Z) (c : char) : Z :=
  (acc * 10 + (Z.of_N c - 48))%Z.

Definition digits_value (ds : str) : Z := fold_left digit_step ds 0%Z.

(** [float(lexeme)]: the binary64 value nearest to [d * 10^k], ties to
    even, with the sign [neg]. *)
Definition float_of_decimal (neg : bool) (d : Z) (k : Z) : spec_float :=
  match d with
  | Zpos m =>
      if (0 <=? k)%Z then
        match (Zpos m * 10 ^ k)%Z with
        | Zpos n => binary_round prec emax neg n 0
        | _ => S754_zero neg
        end
      else
        let '(q, e, l) :=
          SFdiv_core_binary prec emax (Zpos m) 0 (10 ^ (- k))%Z 0 in
        binary_round_aux prec emax neg q e l
  | _ => S754_zero neg
  end.

(** The integer part of [NUMBER_RE]: [0|[1-9][0-9]*]. *)
Definition match_integer (s : str) : option (str * str) :=
  match s with
  | c :: r =>
      if N.eqb c ZERO then Some ([c], r)
      else if is_digit c then let '(ds, r') := span_digits r in Some (c :: ds, r')
      else None
  | [] => None
  end.

(** The fraction [(\.[0-9]+)?]: its digits, empty when the group is absent. *)
Definition match_frac (s : str) : str * str :=
  match s with
  | c :: r =>
      if N.eqb c DOT then
        match span_digits r with
        | ([], _) => ([], s)
        | (ds, r') => (ds, r')
        end
      else ([], s)
  | [] => ([], s)
  end.

(** The exponent [([eE][-+]?[0-9]+)?]: its sign and digits. *)
Definition match_exp (s : str) : option (bool * str) * str :=
  match s with
  | c :: r =>
      if N.eqb c 101 || N.eqb c 69 then
        let '(neg, r1) :=
          match r with
          | sg :: r1 =>
              if N.eqb sg MINUS then (true, r1)
              else if N.eqb sg PLUS then (false, r1)
              else (false, r)
          | [] => (false, r)
          end in
        match span_digits r1 with
        | ([], _) => (None, s)
        | (ds, r') => (Some (neg, ds), r')
        end
      else (None, s)
  | [] => (None, s)
  end.

(** [match_number] followed by [parse_int] or [parse_float]. *)
Definition match_number (s : str) : option (json * str) :=
  let '(neg, s1) :=
    match s with
    | c :: r => if N.eqb c MINUS then (true, r) else (false, s)
    | [] => (false, s)
    end in
  match match_integer s1 with
  | None => None
  | Some (ip, s2) =>
      let '(fd, s3) := match_frac s2 in
      let '(ex, s4) := match_exp s3 in
      match fd, ex with
      | [], None =>
          let v := digits_value ip in
          Some (JInt (if neg then (- v)%Z else v), s4)
      | _, _ =>
          let e :=
            match ex with
            | Some (eneg, ed) =>
                if eneg then (- digits_value ed)%Z else digits_value ed
            | None => 0%Z
            end in
          Some (JFloat (float_of_decimal neg (digits_value (ip ++ fd))
                          (e - Z.of_nat (length fd))%Z), s4)
      end
  end.

Definition lit_null : str := Eval cbv in s2l "null".
Definition lit_true : str := Eval cbv in s2l "true".
Definition lit_false : str := Eval cbv in s2l "false".
Definition lit_NaN : str := Eval cbv in s2l "NaN".
Definition lit_Infinity : str := Eval cbv in s2l "Infinity".
Definition lit_neg_Infinity : str := Eval cbv in s2l "-Infinity".

(** The scalar branches of [scan_once]. *)
Definition scan_scalar (s : str) : pres (json * str) :=
  match strip_prefix lit_null s with
  | Some r => POk (JNull, r)
  | None =>
  match strip_prefix lit_true s with
  | Some r => POk (JBool true, r)
  | None =>
  match strip_prefix lit_false s with
  | Some r => POk (JBool false, r)
  | None =>
  match match_number s with
  | Some vr => POk vr
  | None =>
  match strip_prefix lit_NaN s with
  | Some r => POk (JFloat S754_nan, r)
  | None =>
  match strip_prefix lit_Infinity s with
  | Some r => POk (JFloat (S754_infinity false), r)
  | None =>
  match strip_prefix lit_neg_Infinity s with
  | Some r => POk (JFloat (S754_infinity true), r)
  | None => PErr
  end end end end end end end.

(** [scan_once], [JSONArray] and [JSONObject].  The three call each other;
    [depth] bounds the chain of calls. *)
Fixpoint scan_once (depth : nat) (s : str) : pres (json * str) :=
  match depth with
  | O => PDeep
  | S depth' =>
      match s with
      | [] => PErr
      | c :: r =>
          if N.eqb c QUOTE then
            p ← scanstring r; POk (JStr (fst p), snd p)
          else if N.eqb c LBRACE then
            match skip_ws r with
            | c' :: r' =>
                if N.eqb c' RBRACE then POk (JDict [], r')
                else if N.eqb c' QUOTE then object_items depth' r' []
                else PErr
            | [] => PErr
            end
          else if N.eqb c LBRACKET then
            match skip_ws r with
            | c' :: r' =>
                if N.eqb c' RBRACKET then POk (JList [], r')
                else array_items depth' (c' :: r') []
            | [] => PErr
            end
          else scan_scalar s
      end
  end

with array_items (depth : nat) (s : str) (values : list json)
  : pres (json * str) :=
  match depth with
  | O => PDeep
  | S depth' =>
      p ← scan_once depth' s;
      let values := values ++ [fst p] in
      match skip_ws (snd p) with
      | c :: r =>
          if N.eqb c RBRACKET then POk (JList values, r)
          else if N.eqb c COMMA then array_items depth' (skip_ws r) values
          else PErr
      | [] => PErr
      end
  end

with object_items (depth : nat) (s : str) (pairs : list (str * json))
  : pres (json * str) :=
  match depth with
  | O => PDeep
  | S depth' =>
      k ← scanstring s;
      match skip_ws (snd k) with
      | c :: r =>
          if N.eqb c COLON then
            p ← scan_once depth' (skip_ws r);
            let pairs := pairs ++ [(fst k, fst p)] in
            match skip_ws (snd p) with
            | c' :: r' =>
                if N.eqb c' RBRACE then POk (JDict (dict_of_pairs pairs), r')
                else if N.eqb c' COMMA then
                  match skip_ws r' with
                  | q :: r'' =>
                      if N.eqb q QUOTE then object_items depth' r'' pairs
                      else PErr
                  | [] => PErr
                  end
                else PErr
            | [] => PErr
            end
          else PErr
      | [] => PErr
      end
  end.

(** [JSONDecoder.decode]: one value, surrounded by whitespace only. *)
Definition decode (depth : nat) (s : str) : pres json :=
  p ← scan_once depth (skip_ws s);
  match skip_ws (snd p) with
  | [] => POk (fst p)
  | _ :: _ => PErr
  end.

Definition BOM : char := 65279.

(** [json.loads(s)].  The recursion budget [2 * len(s) + 2] is never
    exhausted (see [loads_not_deep]). *)
Definition loads (s : str) : res json :=
  if startswith s [BOM] then Raise JSONDecodeError
  else
    match decode (2 * length s + 2) s with
    | POk v => Ok v
    | PErr => Raise JSONDecodeError
    | PDeep => Raise RecursionError
    end.

(** *** The encoder, [json.dumps(obj, ensure_ascii=False)] *)

(** [int.__repr__]. *)
Fixpoint uint_chars (u : Decimal.uint) : str :=
  match u with
  | Decimal.Nil => []
  | Decimal.D0 u => 48 :: uint_chars u
  | Decimal.D1 u => 49 :: uint_chars u
  | Decimal.D2 u => 50 :: uint_chars u
  | Decimal.D3 u => 51 :: uint_chars u
  | Decimal.D4 u => 52 :: uint_chars u
  | Decimal.D5 u => 53 :: uint_chars u
  | Decimal.D6 u => 54 :: uint_chars u
  | Decimal.D7 u => 55 :: uint_chars u
  | Decimal.D8 u => 56 :: uint_chars u
  | Decimal.D9 u => 57 :: uint_chars u
  end.

Definition int_repr (z : Z) : str :=
  match Z.to_int z with
  | Decimal.Pos u => uint_chars u
  | Decimal.Neg u => MINUS :: uint_chars u
  end.

Definition hex_digit (n : N) : char := if N.ltb n 10 then 48 + n else 87 + n.

(** [ESCAPE_DCT]: the replacement of a character inside a string. *)
Definition escape_char (c : char) : str :=
  if N.eqb c QUOTE then [BACKSLASH; QUOTE]
  else if N.eqb c BACKSLASH then [BACKSLASH; BACKSLASH]
  else if N.eqb c 10 then [BACKSLASH; 110]
  else if N.eqb c 13 then [BACKSLASH; 114]
  else if N.eqb c 9 then [BACKSLASH; 116]
  else if N.eqb c 8 then [BACKSLASH; 98]
  else if N.eqb c 12 then [BACKSLASH; 102]
  else if N.ltb c 32 then
    [BACKSLASH; 117; 48; 48; hex_digit (N.div c 16); hex_digit (N.modulo c 16)]
  else [c].

(** [encode_basestring]. *)
Definition encode_basestring (s : str) : str :=
  QUOTE :: concat (map escape_char s) ++ [QUOTE].

(** [sep.join(items)]. *)
Fixpoint join (sep : str) (items : list str) : str :=
  match items with
  | [] => []
  | [x] => x
  | x :: r => x ++ sep ++ join sep r
  end.

Definition item_separator : str := [COMMA; SPACE].
Definition key_separator : str := [COLON; SPACE].

Section Encoder.

(** [float.__repr__] on finite floats: the shortest decimal numeral that
    reads back as the same float.  The encoder only needs it as a function. *)
Variable float_repr : spec_float -> str.

(** [floatstr] of [json.encoder]. *)
Definition floatstr (f : spec_float) : str :=
  match f with
  | S754_nan => lit_NaN
  | S754_infinity false => lit_Infinity
  | S754_infinity true => lit_neg_Infinity
  | _ => float_repr f
  end.

Fixpoint dumps (v : json) : str :=
  match v with
  | JNull => lit_null
  | JBool true => lit_true
  | JBool false => lit_false
  | JInt z => int_repr z
  | JFloat f => floatstr f
  | JStr s => encode_basestring s
  | JList l =>
      LBRACKET :: join item_separator (map dumps l) ++ [RBRACKET]
  | JDict d =>
      LBRACE ::
      join item_separator
        (map (fun kv => encode_basestring (fst kv) ++ key_separator
                        ++ dumps (snd kv)) d)
      ++ [RBRACE]
  end.

(** The finite floats of a value, the ones [float_repr] prints. *)
Fixpoint floats_of (v : json) : list spec_float :=
  match v with
  | JFloat (S754_zero s) => [S754_zero s]
  | JFloat (S754_finite s m e) => [S754_finite s m e]
  | JList l => flat_map floats_of l
  | JDict d => flat_map (fun kv => floats_of (snd kv)) d
  | _ => []
  end.

(** What can follow a value in the encoder's output. *)
Definition delimited (rest : str) : Prop :=
  match rest with
  | [] => True
  | c :: _ => c = COMMA \/ c = RBRACKET \/ c = RBRACE
  end.

(** [float_repr f] reads back as [f]: the property of [float.__repr__]
    that the encoder relies on. *)
Definition reads_back (f : spec_float) : Prop :=
  forall rest, delimited rest ->
    scan_once 1 (float_repr f ++ rest) = POk (JFloat f, rest).

(** [reads v]: the text written for [v], followed by a delimiter, is
    scanned as [v]. *)
Definition reads (v : json) : Prop :=
  forall rest, delimited rest ->
    exists d, scan_once d (dumps v ++ rest) = POk (v, rest).

(** The text of a dict member after its opening quote. *)
Definition member_tail (kv : str * json) : str :=
  concat (map escape_char (fst kv))
  ++ QUOTE :: COLON :: SPACE :: dumps (snd kv).

End Encoder.

(** The keys of every dict are pairwise distinct, as in every value built
    by the decoder. *)
Fixpoint distinct (ks : list str) : bool :=
  match ks with
  | [] => true
  | k :: ks' => negb (existsb (str_eqb k) ks') && distinct ks'
  end.

Fixpoint wf (v : json) : bool :=
  match v with
  | JList l => forallb wf l
  | JDict d => distinct (map fst d) && forallb (fun kv => wf (snd kv)) d
  | _ => true
  end.

(** The floats [float.__repr__] prints as numerals. *)
Definition finite (f : spec_float) : bool :=
  match f with
  | S754_zero _ | S754_finite _ _ _ => true
  | _ => false
  end.

End Json.

Import Json.

(** ** Python sequence operations used by the tools *)

Local Open Scope Z_scope.

(** [len(x)]. *)
Definition len {A} (l : list A) : Z := Z.of_nat (length l).

(** [s[lo:hi]] for non-negative [lo] and [hi]; every slice taken by the
    tools has non-negative bounds. *)
Definition slice {A} (s : list A) (lo hi : Z) : list A :=
  take (Z.to_nat (hi - lo)) (drop (Z.to_nat lo) s).

(** [s[lo:]] for non-negative [lo]. *)
Definition slice_from {A} (s : list A) (lo : Z) : list A :=
  drop (Z.to_nat lo) s.

(** [s.find(c)] for a one-character needle: the first index, or [-1]. *)
Fixpoint find_from (s : str) (c : char) (i : Z) : Z :=
  match s with
  | [] => -1
  | x :: r => if N.eqb x c then i else find_from r c (i + 1)
  end.

Definition find (s : str) (c : char) : Z := find_from s c 0.

(** [[m.start() for m in re.finditer(pat, text)]] for a pattern without
    metacharacters: matches are taken left to right and do not overlap.
    [pos] is the index of the head of [text], [skip] the number of
    characters still covered by the previous match. *)
Fixpoint finditer_from (pat text : str) (pos : Z) (skip : nat) : list Z :=
  match text with
  | [] => []
  | _ :: text' =>
      match skip with
      | S k => finditer_from pat text' (pos + 1) k
      | O =>
          if startswith text pat
          then pos :: finditer_from pat text' (pos + 1) (length pat - 1)
          else finditer_from pat text' (pos + 1) 0
      end
  end.

Definition finditer (pat text : str) : list Z := finditer_from pat text 0 0.

(** [max(xs, key=len)] on a non-empty list: the first element of maximal
    length.  [max_len_from best rest] is the loop of [max] with the current
    best element. *)
Fixpoint max_len_from {A} (best : list A) (rest : list (list A)) : list A :=
  match rest with
  | [] => best
  | x :: rest' =>
      if len best <? len x then max_len_from x rest'
      else max_len_from best rest'
  end.

(** [c.isspace()], the characters removed by [str.strip()]. *)
Definition is_space (c : char) : bool :=
  (N.leb 9 c && N.leb c 13) || (N.leb 28 c && N.leb c 32)
  || N.eqb c 133 || N.eqb c 160 || N.eqb c 5760
  || (N.leb 8192 c && N.leb c 8202)
  || N.eqb c 8232 || N.eqb c 8233 || N.eqb c 8239 || N.eqb c 8287
  || N.eqb c 12288.

Fixpoint lstrip (s : str) : str :=
  match s with
  | c :: r => if is_space c then lstrip r else s
  | [] => []
  end.

Definition rstrip (s : str) : str := rev (lstrip (rev s)).

(** [s.strip()]. *)
Definition strip (s : str) : str := rstrip (lstrip s).

(** Truth value of a decoded value, as [if x] and [not x] see it. *)
Definition truthy (v : json) : bool :=
  match v with
  | JNull => false
  | JBool b => b
  | JInt z => negb (z =? 0)
  | JFloat (S754_zero _) => false
  | JFloat _ => true
  | JStr s => negb (bool_decide (s = []))
  | JList l => negb (bool_decide (l = []))
  | JDict d => negb (bool_decide (d = []))
  end.

(** [len(v)] on a decoded value. *)
Definition py_len (v : json) : res Z :=
  match v with
  | JStr s => Ok (len s)
  | JList l => Ok (len l)
  | JDict d => Ok (len d)
  | _ => Raise TypeError
  end.

(** The elements [for x in v] visits. *)
Definition py_iter (v : json) : res (list json) :=
  match v with
  | JStr s => Ok (map (fun c => JStr [c]) s)
  | JList l => Ok l
  | JDict d => Ok (map (fun kv => JStr (fst kv)) d)
  | _ => Raise TypeError
  end.

(** [v.get(k, default)]: only a dict has the method. *)
Definition py_get (v : json) (k : str) (default : json) : res json :=
  match v with
  | JDict d => Ok (from_option id default (dict_get d k))
  | _ => Raise AttributeError
  end.

(** [v.strip()]: only a string has the method. *)
Definition py_strip (v : json) : res str :=
  match v with
  | JStr s => Ok (strip s)
  | _ => Raise AttributeError
  end.

(** [needle in s] on strings. *)
Fixpoint is_substring (needle s : str) : bool :=
  startswith s needle ||
  match s with
  | [] => false
  | _ :: s' => is_substring needle s'
  end.

(** [x in data] for a string [x]: a key of a dict, an element of a list, a
    substring of a string. *)
Definition py_contains (x : str) (data : json) : res bool :=
  match data with
  | JDict d => Ok (dict_mem d x)
  | JList l =>
      Ok (existsb (fun e => match e with
                            | JStr s => str_eqb s x
                            | _ => false
                            end) l)
  | JStr s => Ok (is_substring x s)
  | _ => Raise TypeError
  end.

(** [data[k]] for a string [k]. *)
Definition py_getitem (data : json) (k : str) : res json :=
  match data with
  | JDict d =>
      match dict_get d k with
      | Some v => Ok v
      | None => Raise KeyError
      end
  | _ => Raise TypeError
  end.

(** [s.split(sep)] for a one-character separator: [cur] is the piece being
    read. *)
Fixpoint split_from (sep : char) (s cur : str) : list str :=
  match s with
  | [] => [cur]
  | c :: s' =>
      if N.eqb c sep then cur :: split_from sep s' []
      else split_from sep s' (cur ++ [c])
  end.

Definition split (s : str) (sep : char) : list str := split_from sep s [].

(** [s.endswith(c)] for a character. *)
Definition endswith (s : str) (c : char) : bool :=
  match last s with
  | Some x => N.eqb x c
  | None => false
  end.

(** [re.findall] for a pattern with one group that never matches the empty
    string: [matcher] tells, for the text at a position, the group and the
    length of the match there; matches are taken left to right without
    overlap. [skip] counts the characters still covered by the previous
    match. *)
Fixpoint findall_from (matcher : str -> option (str * nat)) (text : str)
    (skip : nat) : list str :=
  match text with
  | [] => []
  | _ :: text' =>
      match skip with
      | S k => findall_from matcher text' k
      | O =>
          match matcher text with
          | Some (group, n) => group :: findall_from matcher text' (n - 1)
          | None => findall_from matcher text' 0
          end
      end
  end.

(** The first [k] such that [stop (drop k s)]: how far a lazy [.*?] runs. *)
Fixpoint lazy_until (stop : str -> bool) (s : str) : option nat :=
  if stop s then Some 0%nat
  else
    match s with
    | [] => None
    | _ :: s' => option_map S (lazy_until stop s')
    end.

(** ** The world of one command *)

(** What a command prints. *)
Inductive msg : Type :=
| MsgNoData
| MsgCannotRead
| MsgParseFailed
| MsgExported (count : Z) (path : str)
| MsgAdded (trigger_key : str)
| MsgContent (preview : str)
| MsgAddedPair (trigger_key preview : str)
| MsgNotFound (trigger_key : str)
| MsgDeleted (count : Z)
| MsgSaved
| MsgRestartNotice
| MsgRestarted
| MsgRestartHandled
| MsgRestartTimeout
| MsgRestartError
| MsgRestartHint
| MsgBadFormat
| MsgImported (count : Z)
| MsgFileMissing.

(** Outcome of [subprocess.run(["killall", "WeType"], timeout=5)]. *)
Inductive killall_outcome : Type :=
| Exited (returncode : Z)
| TimeoutExpired
| Failed.

(** [settings_text] is the content of [wetype.settings] as [read] and
    [decode('utf-8', errors='ignore')] return it; [mmkv] is the content of
    the store as the MMKV library sees it; [files] are the JSON documents
    written by [json.dump], newest last; [signals] counts the restart
    signals sent. *)
Record World : Type := mkWorld {
  settings_text : str;
  mmkv : gmap str str;
  stdout : list msg;
  files : list (str * json);
  signals : nat
}.

Definition io (A : Type) : Type := World -> World * res A.

Definition io_ret {A} (a : A) : io A := fun w => (w, Ok a).

Definition io_bind {A B} (k : A -> io B) (m : io A) : io B :=
  fun w =>
    match m w with
    | (w', Ok a) => k a w'
    | (w', Raise e) => (w', Raise e)
    end.

#[global] Instance io_mret : MRet io := @io_ret.
#[global] Instance io_mbind : MBind io := @io_bind.

Definition lift {A} (r : res A) : io A := fun w => (w, r).

Definition print (m : msg) : io unit :=
  fun w => (mkWorld (settings_text w) (mmkv w) (stdout w ++ [m]) (files w)
              (signals w), Ok tt).

(** [f.read()] on the settings file, decoded. *)
Definition read_settings : io str := fun w => (w, Ok (settings_text w)).

(** [kv.set(value, key)]. *)
Definition kv_set (value k : str) : io unit :=
  fun w => (mkWorld (settings_text w) (<[k := value]> (mmkv w)) (stdout w)
              (files w) (signals w), Ok tt).

(** [kv.getString(key)], the empty string for an absent key. *)
Definition kv_getString (k : str) : io str :=
  fun w => (w, Ok (default [] (mmkv w !! k))).

(** [json.dump(data, f, ensure_ascii=False, indent=2)] into a fresh file. *)
Definition write_json (path : str) (data : json) : io unit :=
  fun w => (mkWorld (settings_text w) (mmkv w) (stdout w)
              (files w ++ [(path, data)]) (signals w), Ok tt).

(** The world after the messages [ms] are printed, after [value] is stored
    under [k], and after [data] is written to [path]. *)
Definition printed (w : World) (ms : list msg) : World :=
  mkWorld (settings_text w) (mmkv w) (stdout w ++ ms) (files w) (signals w).

Definition stored (w : World) (k value : str) : World :=
  mkWorld (settings_text w) (<[k := value]> (mmkv w)) (stdout w) (files w)
    (signals w).

Definition wrote (w : World) (path : str) (data : json) : World :=
  mkWorld (settings_text w) (mmkv w) (stdout w) (files w ++ [(path, data)])
    (signals w).

(** [subprocess.run(["killall", "WeType"])]. *)
Definition send_killall : io unit :=
  fun w => (mkWorld (settings_text w) (mmkv w) (stdout w) (files w)
              (S (signals w)), Ok tt).


(** ** [wetype_raw.py] *)

Module Raw.

Definition hotWordList : str := Eval cbv in s2l "hotWordList".
Definition hw_id : str := Eval cbv in s2l "hw_id".
Definition key : str := Eval cbv in s2l "key".
Definition text_field : str := Eval cbv in s2l "text".

(** The search window after a key occurrence. *)
Definition WINDOW : Z := 100000.

(** The loop [for i, c in enumerate(remaining[json_start:])]: the value of
    [json_end] when the loop ends, [-1] when the closing bracket is not
    found. *)
Fixpoint match_close (cs : str) (i bracket_count json_start : Z) : Z :=
  match cs with
  | [] => -1
  | c :: cs' =>
      if N.eqb c LBRACKET then
        match_close cs' (i + 1) (bracket_count + 1) json_start
      else if N.eqb c RBRACKET then
        let bracket_count := bracket_count - 1 in
        if bracket_count =? 0 then json_start + i + 1
        else match_close cs' (i + 1) bracket_count json_start
      else match_close cs' (i + 1) bracket_count json_start
  end.

(** The format check on a decoded value: a non-empty list whose first
    element is a dict with one of the three fields. *)
Definition is_hotword_list (hotwords : json) : option (list json) :=
  match hotwords with
  | JList (h0 :: tl) =>
      match h0 with
      | JDict d =>
          if dict_mem d hw_id || dict_mem d key || dict_mem d text_field
          then Some (h0 :: tl) else None
      | _ => None
      end
  | _ => None
  end.

(** The window [remaining] of the occurrence at [pos]. *)
Definition remaining_of (text : str) (pos : Z) : str :=
  let search_start := pos + len hotWordList in
  slice text search_start (search_start + WINDOW).

(** One turn of the loop [for pos in hotword_positions], from the list
    [all_hotwords] collected so far to the list after the turn. *)
Definition scan_occurrence (text : str) (pos : Z)
    (all_hotwords : list (list json)) : res (list (list json)) :=
  let remaining := remaining_of text pos in
  let bracket_start := find remaining LBRACKET in
  if bracket_start =? -1 then Ok all_hotwords
  else
    let json_start := bracket_start in
    let json_end :=
      match_close (slice_from remaining json_start) 0 0 json_start in
    if json_end =? -1 then Ok all_hotwords
    else
      let json_str := slice remaining json_start json_end in
      match loads json_str with
      | Ok hotwords =>
          match is_hotword_list hotwords with
          | Some l => Ok (all_hotwords ++ [l])
          | None => Ok all_hotwords
          end
      | Raise JSONDecodeError => Ok all_hotwords
      | Raise e => Raise e
      end.

Fixpoint scan_positions (text : str) (positions : list Z)
    (all_hotwords : list (list json)) : res (list (list json)) :=
  match positions with
  | [] => Ok all_hotwords
  | pos :: positions' =>
      all_hotwords ← scan_occurrence text pos all_hotwords;
      scan_positions text positions' all_hotwords
  end.

(** The list [all_hotwords] when the loop has ended. *)
Definition scan (text : str) : res (list (list json)) :=
  scan_positions text (finditer hotWordList text) [].

(** [read_raw_hotwords()], from the decoded content [text] of the settings
    file. *)
Definition read_raw_hotwords (text : str) : res (list json) :=
  all_hotwords ← scan text;
  match all_hotwords with
  | first :: rest => Ok (max_len_from first rest)
  | [] => Ok []
  end.

(** The text handed to [json.loads] for the occurrence at [pos]: the value
    of [json_str], when the opening bracket and its matching close are both
    found in the window. *)
Definition candidate_span (text : str) (pos : Z) : option str :=
  let remaining := remaining_of text pos in
  let bracket_start := find remaining LBRACKET in
  if bracket_start =? -1 then None
  else
    let json_end :=
      match_close (slice_from remaining bracket_start) 0 0 bracket_start in
    if json_end =? -1 then None
    else Some (slice remaining bracket_start json_end).

(** The decoding of a span: [json.loads] followed by the format check. *)
Definition decode_span (json_str : str) : option (list json) :=
  match loads json_str with
  | Ok hotwords => is_hotword_list hotwords
  | Raise _ => None
  end.

(** The list the occurrence at [pos] appends to [all_hotwords], if any. *)
Definition candidate_at (text : str) (pos : Z) : option (list json) :=
  match candidate_span text pos with
  | Some json_str => decode_span json_str
  | None => None
  end.

(** Nesting depth after reading [s]: opening minus closing brackets. *)
Fixpoint bracket_depth (s : str) : Z :=
  match s with
  | [] => 0
  | c :: r =>
      (if N.eqb c LBRACKET then 1 else if N.eqb c RBRACKET then -1 else 0)
      + bracket_depth r
  end.

Definition is_map (v : json) : bool :=
  match v with JDict _ => true | _ => false end.

(** A span that opens with a bracket and ends at its matching close: the
    depth is zero at the end and positive at every proper prefix. *)
Definition balanced_span (js : str) : Prop :=
  head js = Some LBRACKET /\ last js = Some RBRACKET /\
  bracket_depth js = 0 /\
  forall k, (0 < k < length js)%nat -> 0 < bracket_depth (take k js).

(** No prefix of [s] closes the bracket that opens it. *)
Definition unclosed (s : str) : Prop :=
  forall k, (0 < k <= length s)%nat -> 0 < bracket_depth (take k s).

Section Commands.

Variable float_repr : spec_float -> str.

(** [restart_wetype()]; [outcome] is what the [killall] call does. *)
Definition restart_wetype (outcome : killall_outcome) : io bool :=
  _ ← send_killall;
  match outcome with
  | Exited rc =>
      if rc =? 0 then _ ← print MsgRestarted; mret true
      else _ ← print MsgRestartHandled; mret true
  | TimeoutExpired => _ ← print MsgRestartTimeout; mret true
  | Failed => _ ← print MsgRestartError; _ ← print MsgRestartHint; mret false
  end.

(** [export_hotwords(output_file)]; [now] is [time.strftime(...)]. *)
Definition export_hotwords (output_file now : str) : io unit :=
  text ← read_settings;
  hotwords ← lift (read_raw_hotwords text);
  if negb (truthy (JList hotwords)) then print MsgNoData
  else
    let export_data :=
      JDict [(s2l "exported_at", JStr now);
             (s2l "count", JInt (len hotwords));
             (s2l "hotwords", JList hotwords)] in
    _ ← write_json output_file export_data;
    print (MsgExported (len hotwords) output_file).

(** [add_hotword(trigger_key, text)]; [now_ms] is
    [int(time.time() * 1000)]. *)
Definition add_hotword (trigger_key text : str) (now_ms : Z)
    (outcome : killall_outcome) : io unit :=
  settings ← read_settings;
  hotwords ← lift (read_raw_hotwords settings);
  let new_id := int_repr now_ms in
  let new_hotword :=
    JDict [(hw_id, JStr new_id); (key, JStr trigger_key);
           (text_field, JStr text)] in
  let hotwords := new_hotword :: hotwords in
  let hotwords_json := dumps float_repr (JList hotwords) in
  _ ← kv_set hotwords_json hotWordList;
  _ ← print (MsgAdded trigger_key);
  _ ← print (MsgContent (slice text 0 50));
  _ ← restart_wetype outcome;
  mret tt.

(** [hw.get("key", "").strip()]. *)
Definition stripped_key (hw : json) : res str :=
  k ← py_get hw key (JStr []);
  py_strip k.

(** [[hw for hw in hotwords if hw.get("key", "").strip() != trigger_key]]. *)
Fixpoint remove_key (hotwords : list json) (trigger_key : str)
  : res (list json) :=
  match hotwords with
  | [] => Ok []
  | hw :: hotwords' =>
      k ← stripped_key hw;
      kept ← remove_key hotwords' trigger_key;
      Ok (if str_eqb k trigger_key then kept else hw :: kept)
  end.

(** An entry of the data model: a dict whose trigger key, when present,
    is a string. *)
Definition is_entry (hw : json) : bool :=
  match hw with
  | JDict d =>
      match dict_get d key with
      | None | Some (JStr _) => true
      | Some _ => false
      end
  | _ => false
  end.

(** The trigger key of an entry, empty when the field is absent. *)
Definition trigger_key_of (hw : json) : str :=
  match hw with
  | JDict d =>
      match dict_get d key with
      | Some (JStr s) => s
      | _ => []
      end
  | _ => []
  end.

(** The stripped trigger key of [hw] is [trigger_key]. *)
Definition matches_key (trigger_key : str) (hw : json) : bool :=
  str_eqb (strip (trigger_key_of hw)) trigger_key.

(** [delete_hotword(trigger_key)]. *)
Definition delete_hotword (trigger_key : str) (outcome : killall_outcome)
  : io unit :=
  settings ← read_settings;
  hotwords ← lift (read_raw_hotwords settings);
  let original_count := len hotwords in
  hotwords ← lift (remove_key hotwords trigger_key);
  if len hotwords =? original_count then print (MsgNotFound trigger_key)
  else
    let hotwords_json := dumps float_repr (JList hotwords) in
    _ ← kv_set hotwords_json hotWordList;
    let deleted_count := original_count - len hotwords in
    _ ← print (MsgDeleted deleted_count);
    _ ← restart_wetype outcome;
    mret tt.

End Commands.

End Raw.

(** ** [wetype_rw.py] *)

Module Rw.

Import Raw.

Section Commands.

Variable float_repr : spec_float -> str.

(** [get_hotwords()]. *)
Definition get_hotwords : io json :=
  hotwords_json ← kv_getString hotWordList;
  if negb (bool_decide (hotwords_json = [])) then
    match loads hotwords_json with
    | Ok v => mret v
    | Raise JSONDecodeError => _ ← print MsgParseFailed; mret (JList [])
    | Raise e => lift (Raise e)
    end
  else mret (JList []).

(** [set_hotwords(hotwords)]. *)
Definition set_hotwords (hotwords : json) : io unit :=
  let hotwords_json := dumps float_repr hotwords in
  _ ← kv_set hotwords_json hotWordList;
  _ ← print MsgSaved;
  print MsgRestartNotice.

(** [export_hotwords(output_file)]. *)
Definition export_hotwords (output_file now : str) : io unit :=
  hotwords ← get_hotwords;
  count ← lift (py_len hotwords);
  let export_data :=
    JDict [(s2l "exported_at", JStr now);
           (s2l "count", JInt count);
           (s2l "hotwords", hotwords)] in
  _ ← write_json output_file export_data;
  print (MsgExported count output_file).

(** [import_hotwords(input_file)], from the document [data] that
    [json.load] reads in the file. *)
Definition import_hotwords (data : json) : io unit :=
  has ← lift (py_contains (s2l "hotwords") data);
  chosen ←
    (if has : bool then
       hotwords ← lift (py_getitem data (s2l "hotwords")); mret (Some hotwords)
     else
       match data with
       | JList _ => mret (Some data)
       | _ => _ ← print MsgBadFormat; mret None
       end);
  match chosen with
  | Some hotwords =>
      _ ← set_hotwords hotwords;
      count ← lift (py_len hotwords);
      print (MsgImported count)
  | None => mret tt
  end.

(** [hotwords.insert(0, new_hotword)]: only a list has the method. *)
Definition py_insert0 (hotwords new_hotword : json) : res json :=
  match hotwords with
  | JList l => Ok (JList (new_hotword :: l))
  | _ => Raise AttributeError
  end.

(** [add_hotword(key, text)]. *)
Definition add_hotword (k text : str) (now_ms : Z) : io unit :=
  hotwords ← get_hotwords;
  let new_id := int_repr now_ms in
  let new_hotword :=
    JDict [(hw_id, JStr new_id); (key, JStr k); (text_field, JStr text)] in
  hotwords ← lift (py_insert0 hotwords new_hotword);
  _ ← set_hotwords hotwords;
  print (MsgAddedPair k (slice text 0 50)).

(** [delete_hotword(key)]. *)
Definition delete_hotword (k : str) : io unit :=
  hotwords ← get_hotwords;
  original_count ← lift (py_len hotwords);
  items ← lift (py_iter hotwords);
  hotwords ← lift (remove_key items k);
  if len hotwords =? original_count then print (MsgNotFound k)
  else
    let deleted_count := original_count - len hotwords in
    _ ← set_hotwords (JList hotwords);
    print (MsgDeleted deleted_count).

End Commands.

End Rw.

(** ** [wetype_tool.py] *)

Module Tool.

Import Raw.

Definition newline : char := 10.
Definition clipboardTempList : str := Eval cbv in s2l "clipboardTempList".

(** The pattern [hotWordList\n(\[.*?\])\n] with [re.DOTALL], at the head
    of [text]: the group and the length of the match. *)
Definition match_standard (text : str) : option (str * nat) :=
  match strip_prefix (hotWordList ++ [newline; LBRACKET]) text with
  | Some body =>
      match lazy_until (fun s => startswith s [RBRACKET; newline]) body with
      | Some k =>
          Some (LBRACKET :: take (S k) body, length hotWordList + 1 + S (S k) + 1)%nat
      | None => None
      end
  | None => None
  end.

(** The pattern [hotWordList(\[.*?\])(?=\n|clipboardTempList)]. *)
Definition match_compact (text : str) : option (str * nat) :=
  match strip_prefix (hotWordList ++ [LBRACKET]) text with
  | Some body =>
      match lazy_until
              (fun s =>
                 match s with
                 | c :: after =>
                     N.eqb c RBRACKET
                     && (startswith after [newline]
                         || startswith after clipboardTempList)
                 | [] => false
                 end) body with
      | Some k =>
          Some (LBRACKET :: take (S k) body, length hotWordList + S (S k))%nat
      | None => None
      end
  | None => None
  end.

(** The loop [for match in matches]: the first match that decodes to a
    non-empty list. *)
Fixpoint first_nonempty_list (matches : list str) : res (option (list json)) :=
  match matches with
  | [] => Ok None
  | m :: matches' =>
      match loads m with
      | Ok (JList (x :: l)) => Ok (Some (x :: l))
      | Ok _ => first_nonempty_list matches'
      | Raise JSONDecodeError => first_nonempty_list matches'
      | Raise e => Raise e
      end
  end.

(** The loop [while j < len(lines) and not json_str.rstrip().endswith(']')]
    over the lines from index [j] on. *)
Fixpoint join_until_closed (json_str : str) (lines : list str) : str :=
  match lines with
  | [] => json_str
  | line :: lines' =>
      if endswith (rstrip json_str) RBRACKET then json_str
      else join_until_closed (json_str ++ line) lines'
  end.

(** The last loop of [read_hotwords_raw], over the lines from [line] on. *)
Fixpoint scan_lines (lines : list str) : option (list json) :=
  match lines with
  | [] => None
  | line :: lines' =>
      let next :=
        match lines' with
        | next_line :: rest =>
            if bool_decide (line = hotWordList) && startswith next_line [LBRACKET]
            then
              match loads (join_until_closed next_line rest) with
              | Ok (JList data) => Some data
              | _ => None
              end
            else None
        | [] => None
        end in
      match next with
      | Some data => Some data
      | None => scan_lines lines'
      end
  end.

(** [read_hotwords_raw()]; [content] is the output of [strings] on the
    settings file, [None] when the file does not exist. *)
Definition read_hotwords_raw (content : option str)
  : io (option (list json)) :=
  match content with
  | None => _ ← print MsgFileMissing; mret None
  | Some content =>
      r1 ← lift (first_nonempty_list (findall_from match_standard content 0));
      match r1 with
      | Some data => mret (Some data)
      | None =>
          r2 ← lift (first_nonempty_list
                       (findall_from match_compact content 0));
          match r2 with
          | Some data => mret (Some data)
          | None => mret (scan_lines (split content newline))
          end
      end
  end.

(** The body text of an item, empty when the field is absent. *)
Definition text_of (item : json) : str :=
  match item with
  | JDict d =>
      match dict_get d text_field with
      | Some (JStr s) => s
      | _ => []
      end
  | _ => []
  end.

(** An item that [parse_hotwords] can display: a dict whose trigger key and
    body text, when present, are strings. *)
Definition is_display_entry (item : json) : bool :=
  is_entry item &&
  match item with
  | JDict d =>
      match dict_get d text_field with
      | None | Some (JStr _) => true
      | Some _ => false
      end
  | _ => false
  end.

Definition preview_of (t : str) : str :=
  if 100 <? len t then slice t 0 100 ++ s2l "..." else t.

(** [x[:100] + "..." if len(x) > 100 else x]. *)
Definition text_preview (x : json) : res json :=
  n ← py_len x;
  if 100 <? n then
    match x with
    | JStr s => Ok (JStr (slice s 0 100 ++ s2l "..."))
    | _ => Raise TypeError
    end
  else Ok x.

(** The body of the loop of [parse_hotwords]. *)
Definition parse_item (item : json) : res json :=
  id_ ← py_get item hw_id (JStr []);
  k ← py_get item key (JStr []);
  text ← py_get item text_field (JStr []);
  timestamp ← py_get item (s2l "timestamp") (JInt 0);
  k ← (if truthy k then s ← py_strip k; Ok (JStr s) else Ok (JStr []));
  preview ← text_preview text;
  Ok (JDict [(s2l "id", id_); (key, k); (text_field, text);
             (s2l "timestamp", timestamp); (s2l "text_preview", preview)]).

Fixpoint parse_items (raw_data : list json) : res (list json) :=
  match raw_data with
  | [] => Ok []
  | item :: raw_data' =>
      hw ← parse_item item;
      hotwords ← parse_items raw_data';
      Ok (hw :: hotwords)
  end.

(** [parse_hotwords(raw_data)]; [None] is Python's [None]. *)
Definition parse_hotwords (raw_data : option (list json)) : res (list json) :=
  match raw_data with
  | None | Some [] => Ok []
  | Some l => parse_items l
  end.

(** [export_hotwords(output_path)] from the result [raw_data] of
    [read_hotwords_raw()]; [source] is [WETYPE_MMKV_PATH], [default_path]
    is [DEFAULT_EXPORT_PATH], [now] is [datetime.now().isoformat()]. *)
Definition export_hotwords (raw_data : option (list json))
    (output_path : option str) (source default_path now : str) : io bool :=
  match raw_data with
  | None | Some [] => _ ← print MsgCannotRead; mret false
  | Some _ =>
      hotwords ← lift (parse_hotwords raw_data);
      let output_path := default default_path
        (match output_path with Some [] => None | o => o end) in
      let export_data :=
        JDict [(s2l "exported_at", JStr now);
               (s2l "count", JInt (len hotwords));
               (s2l "source", JStr source);
               (s2l "hotwords", JList hotwords)] in
      _ ← write_json output_path export_data;
      _ ← print (MsgExported (len hotwords) output_path);
      mret true
  end.

(** The record [parse_hotwords] builds for a displayable item. *)
Definition record_of (item : json) : json :=
  JDict [(s2l "id",
          match item with
          | JDict d => from_option id (JStr []) (dict_get d hw_id)
          | _ => JStr []
          end);
         (key, JStr (strip (trigger_key_of item)));
         (text_field, JStr (text_of item));
         (s2l "timestamp",
          match item with
          | JDict d => from_option id (JInt 0)
                         (dict_get d (s2l "timestamp"))
          | _ => JInt 0
          end);
         (s2l "text_preview", JStr (preview_of (text_of item)))].

(** A text without a line break. *)
Definition one_line (s : str) : Prop := Forall (fun c => c <> newline) s.

End Tool.

(** ** Sample inputs *)

Module Examples.


Definition text_mixed : str := jlit "hotWordList[{'key':'a'},1]"%string.

Definition text_two : str :=
  jlit "hotWordList[{'key':'foo ','text':'x'},{'key':'bar','text':'y'}]"%string.

Definition entry_foo : json :=
  JDict [(Raw.key, JStr (s2l "foo "%string));
         (Raw.text_field, JStr (s2l "x"%string))].

Definition entry_bar : json :=
  JDict [(Raw.key, JStr (s2l "bar"%string));
         (Raw.text_field, JStr (s2l "y"%string))].

Definition text_float : str :=
  jlit "[{'hw_id':'1','key':'foo','text':'bar','timestamp':1.5}]"%string.

Definition repr_one_half (f : spec_float) : str := s2l "1.5"%string.

Definition world_of (text : str) : World := mkWorld text ∅ [] [] 0.

(** A world whose store holds [blob] under [hotWordList]. *)
Definition world_with (blob : str) : World :=
  mkWorld [] {[Raw.hotWordList := blob]} [] [] 0.

(** The entry built by [add_hotword]. *)
Definition new_entry (now_ms : Z) (k text : str) : json :=
  JDict [(Raw.hw_id, JStr (int_repr now_ms)); (Raw.key, JStr k);
         (Raw.text_field, JStr text)].

End Examples.

(** * Facts about the decoder *)

Module JsonFacts.

Local Open Scope nat_scope.

Lemma pbind_ok {A B} (m : pres A) (k : A -> pres B) b :
  (m ≫= k) = POk b -> exists a, m = POk a /\ k a = POk b.
Proof. destruct m; simpl; intros; try discriminate; eauto. Qed.

Lemma skip_ws_length s : length (skip_ws s) <= length s.
Proof.
  induction s as [|c r IH]; simpl; [lia|].
  destruct (is_ws c); simpl; lia.
Qed.

Lemma strip_prefix_length p s r :
  strip_prefix p s = Some r -> length s = length p + length r.
Proof.
  revert s; induction p as [|a p IH]; intros [|b s]; simpl; intros H;
    try discriminate; try (inversion H; subst; simpl; lia).
  destruct (N.eqb a b); [|discriminate].
  apply IH in H. lia.
Qed.

Lemma pcons_ok c m x r :
  pcons c m = POk (x, r) -> exists x', m = POk (x', r) /\ x = c :: x'.
Proof.
  unfold pcons. intros H. apply pbind_ok in H as ([x' r'] & -> & H).
  simpl in H. inversion H; subst. eauto.
Qed.

Lemma scanstring_length_aux n : forall s x r,
  length s <= n -> scanstring s = POk (x, r) -> length r < length s.
Proof.
  induction n as [|n IH]; intros s x r Hle H.
  - destruct s; simpl in *; [discriminate|lia].
  - assert (IH' : forall s' x' r', length s' < length s ->
              scanstring s' = POk (x', r') -> length r' < length s').
    { intros s' x' r' Hlt. apply IH. lia. }
    clear IH.
    destruct s as [|c s1]; [discriminate|].
    cbn [scanstring] in H.
    destruct (N.eqb c QUOTE); [inversion H; subst; simpl; lia|].
    destruct (N.eqb c BACKSLASH).
    + destruct s1 as [|esc r1]; [discriminate|].
      destruct (N.eqb esc 117).
      * destruct r1 as [|h1 [|h2 [|h3 [|h4 r2]]]]; try discriminate.
        destruct (decode_uXXXX h1 h2 h3 h4) as [uni|]; [|discriminate].
        assert (Hr2 : forall x' r', scanstring r2 = POk (x', r') ->
                  length r' < length r2).
        { intros x' r'. apply IH'. simpl. lia. }
        destruct r2 as [|b [|u [|g1 [|g2 [|g3 [|g4 r3]]]]]];
          try (apply pcons_ok in H as (x' & H & ->);
               apply Hr2 in H; simpl in *; lia).
        destruct (is_high_surrogate uni && N.eqb b BACKSLASH && N.eqb u 117).
        -- destruct (decode_uXXXX g1 g2 g3 g4) as [uni2|]; [|discriminate].
           destruct (is_low_surrogate uni2);
             apply pcons_ok in H as (x' & H & ->).
           ++ apply IH' in H; simpl in *; lia.
           ++ apply Hr2 in H; simpl in *; lia.
        -- apply pcons_ok in H as (x' & H & ->).
           apply Hr2 in H; simpl in *; lia.
      * destruct (backslash_char esc); [|discriminate].
        apply pcons_ok in H as (x' & H & ->).
        apply IH' in H; simpl in *; lia.
    + destruct (N.ltb c 32); [discriminate|].
      apply pcons_ok in H as (x' & H & ->).
      apply IH' in H; simpl in *; lia.
Qed.

Lemma scanstring_length s x r :
  scanstring s = POk (x, r) -> length r < length s.
Proof. apply (scanstring_length_aux (length s)). lia. Qed.

Lemma span_digits_length s ds r :
  span_digits s = (ds, r) -> length s = length ds + length r.
Proof.
  revert ds r; induction s as [|c s IH]; simpl; intros ds r H.
  - inversion H; reflexivity.
  - destruct (is_digit c).
    + destruct (span_digits s) as [ds' r'] eqn:E. inversion H; subst.
      specialize (IH _ _ eq_refl). simpl. lia.
    + inversion H; subst. reflexivity.
Qed.

Lemma match_integer_length s ip r :
  match_integer s = Some (ip, r) -> length r < length s.
Proof.
  destruct s as [|c s]; simpl; [discriminate|].
  destruct (N.eqb c ZERO).
  - intros H; inversion H; subst; simpl; lia.
  - destruct (is_digit c); [|discriminate].
    destruct (span_digits s) as [ds r'] eqn:E. intros H; inversion H; subst.
    apply span_digits_length in E. simpl. lia.
Qed.

Lemma match_frac_length s fd r :
  match_frac s = (fd, r) -> length r <= length s.
Proof.
  destruct s as [|c s]; simpl.
  - intros H; inversion H; subst; simpl; lia.
  - destruct (N.eqb c DOT).
    + destruct (span_digits s) as [ds r'] eqn:E.
      apply span_digits_length in E.
      destruct ds; intros H; inversion H; subst; simpl in *; lia.
    + intros H; inversion H; subst; simpl; lia.
Qed.

Lemma match_exp_length s ex r :
  match_exp s = (ex, r) -> length r <= length s.
Proof.
  destruct s as [|c s]; simpl.
  - intros H; inversion H; subst; simpl; lia.
  - destruct (N.eqb c 101 || N.eqb c 69).
    + destruct s as [|sg s1].
      * simpl. intros H; inversion H; subst; simpl; lia.
      * destruct (N.eqb sg MINUS); [|destruct (N.eqb sg PLUS)];
          match goal with |- context [span_digits ?l] =>
            destruct (span_digits l) as [ds r'] eqn:E end;
          apply span_digits_length in E;
          destruct ds; intros H; inversion H; subst; simpl in *; lia.
    + intros H; inversion H; subst; simpl; lia.
Qed.

Lemma match_number_length s v r :
  match_number s = Some (v, r) -> length r < length s.
Proof.
  unfold match_number.
  set (p := match s with
            | c :: r0 => if N.eqb c MINUS then (true, r0) else (false, s)
            | [] => (false, s) end).
  assert (Hp : length (snd p) <= length s).
  { subst p. destruct s as [|c s]; simpl; [lia|].
    destruct (N.eqb c MINUS); simpl; lia. }
  destruct p as [neg s1]. simpl in Hp.
  destruct (match_integer s1) as [[ip s2]|] eqn:E1; [|discriminate].
  apply match_integer_length in E1.
  destruct (match_frac s2) as [fd s3] eqn:E2. apply match_frac_length in E2.
  destruct (match_exp s3) as [ex s4] eqn:E3. apply match_exp_length in E3.
  destruct fd, ex; intros H; inversion H; subst; lia.
Qed.

Lemma scan_scalar_length s v r :
  scan_scalar s = POk (v, r) -> length r < length s.
Proof.
  unfold scan_scalar. intros H.
  repeat match type of H with
  | context [strip_prefix ?p s] =>
      let E := fresh "E" in
      destruct (strip_prefix p s) eqn:E;
      [apply strip_prefix_length in E; inversion H; subst; simpl in E; lia|]
  | context [match_number s] =>
      let E := fresh "E" in
      destruct (match_number s) as [[v' r']|] eqn:E;
      [apply match_number_length in E; inversion H; subst; lia|]
  end.
  discriminate.
Qed.

Lemma pcons_not_deep c m : m <> PDeep -> pcons c m <> PDeep.
Proof. destruct m; simpl; congruence. Qed.

Lemma scanstring_not_deep_aux n : forall s,
  length s <= n -> scanstring s <> PDeep.
Proof.
  induction n as [|n IH]; intros s Hle.
  - destruct s; simpl in *; [discriminate|lia].
  - destruct s as [|c s1]; [discriminate|].
    simpl in Hle. cbn [scanstring].
    destruct (N.eqb c QUOTE); [discriminate|].
    destruct (N.eqb c BACKSLASH).
    + destruct s1 as [|esc r1]; [discriminate|].
      destruct (N.eqb esc 117).
      * destruct r1 as [|h1 [|h2 [|h3 [|h4 r2]]]]; try discriminate.
        destruct (decode_uXXXX h1 h2 h3 h4) as [uni|]; [|discriminate].
        assert (Hr2 : scanstring r2 <> PDeep) by (apply IH; simpl in *; lia).
        destruct r2 as [|b [|u [|g1 [|g2 [|g3 [|g4 r3]]]]]];
          try (apply pcons_not_deep; exact Hr2).
        destruct (is_high_surrogate uni && N.eqb b BACKSLASH && N.eqb u 117);
          [|apply pcons_not_deep; exact Hr2].
        destruct (decode_uXXXX g1 g2 g3 g4) as [uni2|]; [|discriminate].
        destruct (is_low_surrogate uni2); apply pcons_not_deep;
          [apply IH; simpl in *; lia|exact Hr2].
      * destruct (backslash_char esc); [|discriminate].
        apply pcons_not_deep, IH. simpl in *; lia.
    + destruct (N.ltb c 32); [discriminate|].
      apply pcons_not_deep, IH. lia.
Qed.

Lemma scanstring_not_deep s : scanstring s <> PDeep.
Proof. apply (scanstring_not_deep_aux (length s)). lia. Qed.

Lemma scan_scalar_not_deep s : scan_scalar s <> PDeep.
Proof.
  unfold scan_scalar.
  repeat match goal with
  | |- context [match ?x with _ => _ end] => destruct x
  end; discriminate.
Qed.

(** Every scanning function consumes input. *)
Lemma scan_length d :
  (forall s v r, scan_once d s = POk (v, r) -> length r < length s) /\
  (forall s vs v r, array_items d s vs = POk (v, r) -> length r < length s) /\
  (forall s ps v r, object_items d s ps = POk (v, r) -> length r < length s).
Proof.
  induction d as [|d (IHs & IHa & IHo)].
  - repeat split; intros; discriminate.
  - repeat split.
    + intros s v r H. destruct s as [|c s1]; [discriminate|].
      cbn [scan_once] in H.
      destruct (N.eqb c QUOTE).
      { apply pbind_ok in H as ([x r'] & Hs & H). inversion H; subst.
        apply scanstring_length in Hs. simpl in *; lia. }
      destruct (N.eqb c LBRACE).
      { pose proof (skip_ws_length s1) as Hw.
        destruct (skip_ws s1) as [|c' r']; [discriminate|].
        destruct (N.eqb c' RBRACE); [inversion H; subst; simpl in *; lia|].
        destruct (N.eqb c' QUOTE); [|discriminate].
        apply IHo in H. simpl in *; lia. }
      destruct (N.eqb c LBRACKET).
      { pose proof (skip_ws_length s1) as Hw.
        destruct (skip_ws s1) as [|c' r']; [discriminate|].
        destruct (N.eqb c' RBRACKET); [inversion H; subst; simpl in *; lia|].
        apply IHa in H. simpl in *; lia. }
      apply scan_scalar_length in H. exact H.
    + intros s vs v r H. cbn [array_items] in H.
      apply pbind_ok in H as ([v1 r1] & Hs & H). apply IHs in Hs.
      cbn [fst snd] in H.
      pose proof (skip_ws_length r1) as Hw.
      destruct (skip_ws r1) as [|c r2]; [discriminate|].
      destruct (N.eqb c RBRACKET); [inversion H; subst; simpl in *; lia|].
      destruct (N.eqb c COMMA); [|discriminate].
      apply IHa in H. pose proof (skip_ws_length r2). simpl in *; lia.
    + intros s ps v r H. cbn [object_items] in H.
      apply pbind_ok in H as ([k r1] & Hk & H). apply scanstring_length in Hk.
      cbn [fst snd] in H.
      pose proof (skip_ws_length r1) as Hw.
      destruct (skip_ws r1) as [|c r2]; [discriminate|].
      destruct (N.eqb c COLON); [|discriminate].
      apply pbind_ok in H as ([v1 r3] & Hs & H). apply IHs in Hs.
      cbn [fst snd] in H.
      pose proof (skip_ws_length r2) as Hw2.
      pose proof (skip_ws_length r3) as Hw3.
      destruct (skip_ws r3) as [|c' r4]; [discriminate|].
      destruct (N.eqb c' RBRACE); [inversion H; subst; simpl in *; lia|].
      destruct (N.eqb c' COMMA); [|discriminate].
      pose proof (skip_ws_length r4) as Hw4.
      destruct (skip_ws r4) as [|q r5]; [discriminate|].
      destruct (N.eqb q QUOTE); [|discriminate].
      apply IHo in H. simpl in *; lia.
Qed.

Lemma pbind_not_deep {A B} (m : pres A) (k : A -> pres B) :
  m <> PDeep -> (forall a, m = POk a -> k a <> PDeep) -> (m ≫= k) <> PDeep.
Proof. destruct m; simpl; intros H1 H2; try congruence. apply H2; reflexivity. Qed.

(** A recursion budget of twice the input length is never exhausted. *)
Lemma scan_not_deep d :
  (forall s, 2 * length s + 1 <= d -> scan_once d s <> PDeep) /\
  (forall s vs, 2 * length s + 2 <= d -> array_items d s vs <> PDeep) /\
  (forall s ps, 2 * length s + 2 <= d -> object_items d s ps <> PDeep).
Proof.
  induction d as [|d (IHs & IHa & IHo)].
  - repeat split; intros; lia.
  - repeat split.
    + intros s Hd. destruct s as [|c s1]; [discriminate|].
      cbn [scan_once]. simpl in Hd.
      destruct (N.eqb c QUOTE).
      { apply pbind_not_deep; [apply scanstring_not_deep|discriminate]. }
      destruct (N.eqb c LBRACE).
      { pose proof (skip_ws_length s1) as Hw.
        destruct (skip_ws s1) as [|c' r']; [discriminate|].
        destruct (N.eqb c' RBRACE); [discriminate|].
        destruct (N.eqb c' QUOTE); [|discriminate].
        apply IHo. simpl in *; lia. }
      destruct (N.eqb c LBRACKET).
      { pose proof (skip_ws_length s1) as Hw.
        destruct (skip_ws s1) as [|c' r']; [discriminate|].
        destruct (N.eqb c' RBRACKET); [discriminate|].
        apply IHa. simpl in *; lia. }
      apply scan_scalar_not_deep.
    + intros s vs Hd. cbn [array_items].
      apply pbind_not_deep; [apply IHs; lia|].
      intros [v1 r1] Hs. apply scan_length in Hs. cbn [fst snd].
      pose proof (skip_ws_length r1) as Hw.
      destruct (skip_ws r1) as [|c r2]; [discriminate|].
      destruct (N.eqb c RBRACKET); [discriminate|].
      destruct (N.eqb c COMMA); [|discriminate].
      apply IHa. pose proof (skip_ws_length r2). simpl in *; lia.
    + intros s ps Hd. cbn [object_items].
      apply pbind_not_deep; [apply scanstring_not_deep|].
      intros [k r1] Hk. apply scanstring_length in Hk. cbn [fst snd].
      pose proof (skip_ws_length r1) as Hw.
      destruct (skip_ws r1) as [|c r2]; [discriminate|].
      destruct (N.eqb c COLON); [|discriminate].
      pose proof (skip_ws_length r2) as Hw2.
      apply pbind_not_deep; [apply IHs; simpl in *; lia|].
      intros [v1 r3] Hs. apply scan_length in Hs. cbn [fst snd].
      pose proof (skip_ws_length r3) as Hw3.
      destruct (skip_ws r3) as [|c' r4]; [discriminate|].
      destruct (N.eqb c' RBRACE); [discriminate|].
      destruct (N.eqb c' COMMA); [|discriminate].
      pose proof (skip_ws_length r4) as Hw4.
      destruct (skip_ws r4) as [|q r5]; [discriminate|].
      destruct (N.eqb q QUOTE); [|discriminate].
      apply IHo. simpl in *; lia.
Qed.

(** [json.loads] either returns a value or raises [JSONDecodeError]. *)
Lemma loads_not_deep s : loads s <> Raise RecursionError.
Proof.
  unfold loads. destruct (startswith s [BOM]); [discriminate|].
  destruct (decode (2 * length s + 2) s) eqn:E; try discriminate.
  exfalso. unfold decode in E.
  assert (Hs : scan_once (2 * length s + 2) (skip_ws s) <> PDeep).
  { apply scan_not_deep. pose proof (skip_ws_length s). lia. }
  destruct (scan_once (2 * length s + 2) (skip_ws s)) as [[v r]| |];
    simpl in E; try congruence.
  destruct (skip_ws r); discriminate.
Qed.

Lemma loads_cases s :
  (exists v, loads s = Ok v) \/ loads s = Raise JSONDecodeError.
Proof.
  pose proof (loads_not_deep s) as H. unfold loads in *.
  destruct (startswith s [BOM]); [right; reflexivity|].
  destruct (decode (2 * length s + 2) s); eauto. congruence.
Qed.

End JsonFacts.

(** * Facts about the scan of [wetype_raw.py] *)

Module RawFacts.

Import JsonFacts Raw.

Local Open Scope Z_scope.

(** *** [find] *)

Lemma find_from_spec s c i :
  (find_from s c i = -1 /\ (c ∉ s)) \/
  (exists pre post, s = pre ++ c :: post /\ (c ∉ pre) /\
     find_from s c i = i + len pre).
Proof.
  revert i; induction s as [|x s IH]; intros i; simpl.
  - left. split; [reflexivity|apply not_elem_of_nil].
  - destruct (N.eqb_spec x c) as [->|Hne].
    + right. exists [], s. repeat split; [apply not_elem_of_nil|].
      unfold len; simpl; lia.
    + destruct (IH (i + 1)) as [(H1 & H2)|(pre & post & -> & H2 & H3)].
      * left. split; [exact H1|].
        rewrite not_elem_of_cons. split; [congruence|assumption].
      * right. exists (x :: pre), post. repeat split.
        -- rewrite not_elem_of_cons. split; [congruence|assumption].
        -- rewrite H3. unfold len; simpl length. lia.
Qed.

(** *** [match_close] *)

Lemma bracket_depth_app a b :
  bracket_depth (a ++ b) = bracket_depth a + bracket_depth b.
Proof. induction a as [|c a IH]; simpl; [reflexivity|]. rewrite IH. lia. Qed.

(** With a positive count, the loop stops at the first position where the
    count returns to zero, and fails when there is none. *)
Lemma bracket_depth_other c r :
  c <> LBRACKET -> c <> RBRACKET -> bracket_depth (c :: r) = bracket_depth r.
Proof.
  intros Hl Hr. cbn [bracket_depth].
  destruct (N.eqb_spec c LBRACKET); [congruence|].
  destruct (N.eqb_spec c RBRACKET); [congruence|]. lia.
Qed.

Lemma bracket_depth_open r : bracket_depth (LBRACKET :: r) = 1 + bracket_depth r.
Proof. reflexivity. Qed.

Lemma bracket_depth_close r : bracket_depth (RBRACKET :: r) = -1 + bracket_depth r.
Proof. reflexivity. Qed.

Lemma match_close_spec cs : forall i bc js,
  1 <= bc -> 0 <= i -> 0 <= js ->
  (match_close cs i bc js = -1 /\
   forall k, (k <= length cs)%nat -> 0 < bc + bracket_depth (take k cs)) \/
  (exists n, (n < length cs)%nat /\
     match_close cs i bc js = js + i + Z.of_nat n + 1 /\
     cs !! n = Some RBRACKET /\
     bc + bracket_depth (take (S n) cs) = 0 /\
     forall k, (k <= n)%nat -> 0 < bc + bracket_depth (take k cs)).
Proof.
  induction cs as [|c cs IH]; intros i bc js Hbc Hi Hjs.
  - left. split; [reflexivity|]. intros k _. rewrite take_nil. simpl. lia.
  - assert (Hstep : forall bc', 1 <= bc' ->
      (forall r, bc + bracket_depth (c :: r) = bc' + bracket_depth r) ->
      (match_close cs (i + 1) bc' js = -1 /\
       forall k, (k <= length (c :: cs))%nat ->
         0 < bc + bracket_depth (take k (c :: cs))) \/
      (exists n, (n < length (c :: cs))%nat /\
         match_close cs (i + 1) bc' js = js + i + Z.of_nat n + 1 /\
         (c :: cs) !! n = Some RBRACKET /\
         bc + bracket_depth (take (S n) (c :: cs)) = 0 /\
         forall k, (k <= n)%nat ->
           0 < bc + bracket_depth (take k (c :: cs)))).
    { intros bc' Hbc' Hd.
      destruct (IH (i + 1) bc' js)
        as [(H1 & H2)|(n & Hn & H1 & H2 & H3 & H4)]; try lia.
      - left. split; [exact H1|]. intros [|k] Hk; [simpl; lia|].
        cbn [take]. rewrite Hd. apply H2. simpl in Hk. lia.
      - right. exists (S n). split_and!.
        + simpl. lia.
        + rewrite H1. lia.
        + exact H2.
        + cbn [take]. rewrite Hd. exact H3.
        + intros [|k] Hk; [simpl; lia|]. cbn [take]. rewrite Hd.
          apply H4. lia. }
    cbn [match_close].
    destruct (N.eqb_spec c LBRACKET) as [El|Hl].
    + apply Hstep; [lia|]. intros r. rewrite El, bracket_depth_open. lia.
    + destruct (N.eqb_spec c RBRACKET) as [Er|Hr].
      * destruct (Z.eqb_spec (bc - 1) 0) as [H0|H0].
        -- right. exists 0%nat. split_and!.
           ++ simpl. lia.
           ++ lia.
           ++ rewrite Er. reflexivity.
           ++ rewrite Er. simpl. lia.
           ++ intros k Hk. assert (k = 0%nat) as -> by lia. simpl. lia.
        -- apply Hstep; [lia|]. intros r. rewrite Er, bracket_depth_close. lia.
      * apply Hstep; [lia|]. intros r. rewrite bracket_depth_other by assumption.
        reflexivity.
Qed.

(** *** The span of one occurrence *)

Lemma len_nat {A} (l : list A) : Z.to_nat (len l) = length l.
Proof. unfold len. lia. Qed.

Lemma candidate_span_cases text pos :
  let remaining := remaining_of text pos in
  (candidate_span text pos = None /\
   ((LBRACKET ∉ remaining) \/
    exists pre rest, remaining = pre ++ LBRACKET :: rest /\
      (LBRACKET ∉ pre) /\ unclosed (LBRACKET :: rest))) \/
  (exists js pre post, candidate_span text pos = Some js /\
     remaining = pre ++ js ++ post /\ (LBRACKET ∉ pre) /\ balanced_span js).
Proof.
  intros remaining. unfold candidate_span. fold remaining.
  unfold find.
  destruct (find_from_spec remaining LBRACKET 0)
    as [(Hf & Hno)|(pre & post & Hrem & Hpre & Hf)].
  - left. rewrite Hf. simpl. split; [reflexivity|]. left. exact Hno.
  - rewrite Hf. replace (0 + len pre) with (len pre) by lia.
    destruct (Z.eqb_spec (len pre) (-1)) as [Hneg|_];
      [unfold len in Hneg; lia|].
    assert (Hdrop : slice_from remaining (len pre) = LBRACKET :: post).
    { unfold slice_from. rewrite len_nat, Hrem, drop_app_length. reflexivity. }
    rewrite Hdrop. cbn [match_close]. simpl (N.eqb LBRACKET LBRACKET).
    cbv iota. change (0 + 1) with 1.
    destruct (match_close_spec post 1 1 (len pre))
      as [(H1 & H2)|(n & Hn & H1 & H2 & H3 & H4)]; try (unfold len; lia).
    + left. rewrite H1. simpl. split; [reflexivity|]. right.
      exists pre, post. split_and!; [exact Hrem|exact Hpre|].
      intros [|k] Hk; [lia|]. cbn [take]. rewrite bracket_depth_open.
      apply H2. simpl in Hk. lia.
    + right. rewrite H1.
      destruct (Z.eqb_spec (len pre + 1 + Z.of_nat n + 1) (-1)) as [Hneg|_];
        [unfold len in Hneg; lia|].
      exists (LBRACKET :: take (S n) post), pre, (drop (S n) post).
      assert (Hjs : slice remaining (len pre) (len pre + 1 + Z.of_nat n + 1)
                    = LBRACKET :: take (S n) post).
      { unfold slice. rewrite len_nat, Hrem, drop_app_length.
        replace (Z.to_nat (len pre + 1 + Z.of_nat n + 1 - len pre))
          with (S (S n)) by lia. reflexivity. }
      split_and!.
      * rewrite Hjs. reflexivity.
      * rewrite Hrem. simpl. rewrite take_drop. reflexivity.
      * exact Hpre.
      * unfold balanced_span. split_and!.
        -- reflexivity.
        -- change (LBRACKET :: take (S n) post)
             with ([LBRACKET] ++ take (S n) post).
           rewrite last_app.
           rewrite (take_S_r post n RBRACKET H2), last_snoc. reflexivity.
        -- rewrite bracket_depth_open. exact H3.
        -- intros [|k] Hk; [lia|]. cbn [take]. rewrite bracket_depth_open.
           cbn [length] in Hk. rewrite length_take in Hk.
           rewrite take_take. replace (k `min` S n)%nat with k by lia.
           apply H4. lia.
Qed.

(** *** The loop over the occurrences *)




(** *** [re.finditer]: the positions increase *)

Lemma finditer_from_lb pat text : forall pos skip p,
  p ∈ finditer_from pat text pos skip -> pos <= p.
Proof.
  induction text as [|c text IH]; intros pos skip p Hp; simpl in Hp.
  - apply elem_of_nil in Hp. contradiction.
  - destruct skip as [|k].
    + destruct (startswith (c :: text) pat).
      * apply elem_of_cons in Hp as [->|Hp]; [lia|]. apply IH in Hp. lia.
      * apply IH in Hp. lia.
    + apply IH in Hp. lia.
Qed.



Lemma finditer_nonneg p text : p ∈ finditer hotWordList text -> 0 <= p.
Proof. apply finditer_from_lb. Qed.

(** *** [max(..., key=len)] *)




End RawFacts.

(** * The scan and the selection *)

Module RawClaims.

Import JsonFacts Raw RawFacts Examples.

Local Open Scope Z_scope.

(** *** The selection *)











Lemma is_hotword_list_some v l :
  is_hotword_list v = Some l <->
  v = JList l /\
  exists d tl, l = JDict d :: tl /\
    (dict_mem d hw_id = true \/ dict_mem d key = true
     \/ dict_mem d text_field = true).
Proof.
  split.
  - destruct v as [| | | | |[|h0 tl]|]; simpl; try discriminate.
    destruct h0 as [| | | | | |d]; try discriminate.
    destruct (dict_mem d hw_id) eqn:E1; simpl.
    { intros H; inversion H; subst. split; [reflexivity|]. eauto 6. }
    destruct (dict_mem d key) eqn:E2; simpl.
    { intros H; inversion H; subst. split; [reflexivity|]. eauto 6. }
    destruct (dict_mem d text_field) eqn:E3; simpl; [|discriminate].
    intros H; inversion H; subst. split; [reflexivity|]. eauto 7.
  - intros (-> & d & tl & -> & H). simpl.
    destruct H as [->|[->| ->]]; simpl; rewrite ?orb_true_r; reflexivity.
Qed.

(** C2, as stated, fails: a list whose second element is a number is
    accepted, because only the first element is inspected. *)
Lemma C2_counterexample :
  candidate_span text_mixed 0 = Some (jlit "[{'key':'a'},1]"%string) /\
  loads (jlit "[{'key':'a'},1]"%string)
  = Ok (JList [JDict [(key, JStr (s2l "a"%string))]; JInt 1]) /\
  candidate_at text_mixed 0
  = Some [JDict [(key, JStr (s2l "a"%string))]; JInt 1] /\
  forallb is_map [JDict [(key, JStr (s2l "a"%string))]; JInt 1] = false /\
  read_raw_hotwords text_mixed
  = Ok [JDict [(key, JStr (s2l "a"%string))]; JInt 1].
Proof. vm_compute. repeat split. Qed.

(** C2, amended. A span that decodes to a list is accepted exactly when the
    list is non-empty and its first element is a dict that has one of the
    keys [hw_id], [key], [text]; the other elements are not inspected. *)
Theorem C2_first_element_decides text pos js l :
  candidate_span text pos = Some js ->
  loads js = Ok (JList l) ->
  (candidate_at text pos = Some l <->
   exists d tl, l = JDict d :: tl /\
     (dict_mem d hw_id = true \/ dict_mem d key = true
      \/ dict_mem d text_field = true)) /\
  (candidate_at text pos = Some l \/ candidate_at text pos = None).
Proof.
  intros Hs Hl. unfold candidate_at, decode_span. rewrite Hs, Hl. split.
  - rewrite is_hotword_list_some. split.
    + intros (_ & H). exact H.
    + intros H. split; [reflexivity|exact H].
  - destruct (is_hotword_list (JList l)) as [l'|] eqn:E; [|right; reflexivity].
    left. apply is_hotword_list_some in E as (E & _). congruence.
Qed.

Lemma C2_witness :
  candidate_span text_mixed 0 = Some (jlit "[{'key':'a'},1]"%string) /\
  loads (jlit "[{'key':'a'},1]"%string)
  = Ok (JList [JDict [(key, JStr (s2l "a"%string))]; JInt 1]) /\
  (candidate_at text_mixed 0
     = Some [JDict [(key, JStr (s2l "a"%string))]; JInt 1] <->
   exists d tl, [JDict [(key, JStr (s2l "a"%string))]; JInt 1] = JDict d :: tl /\
     (dict_mem d hw_id = true \/ dict_mem d key = true
      \/ dict_mem d text_field = true)).
Proof.
  assert (H1 : candidate_span text_mixed 0
               = Some (jlit "[{'key':'a'},1]"%string))
    by (vm_compute; reflexivity).
  assert (H2 : loads (jlit "[{'key':'a'},1]"%string)
               = Ok (JList [JDict [(key, JStr (s2l "a"%string))]; JInt 1]))
    by (vm_compute; reflexivity).
  split; [exact H1|]. split; [exact H2|].
  exact (proj1 (C2_first_element_decides text_mixed 0 _ _ H1 H2)).
Defined.


End RawClaims.

(** * The encoder and the decoder are inverse *)

Module RoundTrip.

Import JsonFacts.

Local Open Scope nat_scope.

(** *** More budget does not change a result *)

Lemma pbind_stable {A B} (m m' : pres A) (k k' : A -> pres B) :
  (m ≫= k) <> PDeep ->
  (m <> PDeep -> m' = m) ->
  (forall a, m = POk a -> k a <> PDeep -> k' a = k a) ->
  (m' ≫= k') = (m ≫= k).
Proof.
  intros H Hm Hk. destruct m as [a| |]; simpl in *; try congruence.
  - rewrite Hm by discriminate. simpl. apply Hk; [reflexivity|exact H].
  - rewrite Hm by discriminate. reflexivity.
Qed.

Lemma scan_stable d :
  (forall s d', d <= d' -> scan_once d s <> PDeep ->
     scan_once d' s = scan_once d s) /\
  (forall s vs d', d <= d' -> array_items d s vs <> PDeep ->
     array_items d' s vs = array_items d s vs) /\
  (forall s ps d', d <= d' -> object_items d s ps <> PDeep ->
     object_items d' s ps = object_items d s ps).
Proof.
  induction d as [|d (IHs & IHa & IHo)].
  - repeat split; intros; simpl in *; congruence.
  - repeat split.
    + intros s [|d'] Hd H; [lia|]. assert (Hd' : d <= d') by lia.
      destruct s as [|c s1]; [reflexivity|].
      cbn [scan_once] in *.
      destruct (N.eqb c QUOTE); [reflexivity|].
      destruct (N.eqb c LBRACE).
      { destruct (skip_ws s1) as [|c' r']; [reflexivity|].
        destruct (N.eqb c' RBRACE); [reflexivity|].
        destruct (N.eqb c' QUOTE); [|reflexivity].
        apply IHo; assumption. }
      destruct (N.eqb c LBRACKET); [|reflexivity].
      destruct (skip_ws s1) as [|c' r']; [reflexivity|].
      destruct (N.eqb c' RBRACKET); [reflexivity|].
      apply IHa; assumption.
    + intros s vs [|d'] Hd H; [lia|]. assert (Hd' : d <= d') by lia.
      cbn [array_items] in *.
      apply pbind_stable; [exact H| |].
      * intros Hs. apply IHs; assumption.
      * intros [v1 r1] _. cbn [fst snd].
        destruct (skip_ws r1) as [|c r2]; [reflexivity|].
        destruct (N.eqb c RBRACKET); [reflexivity|].
        destruct (N.eqb c COMMA); [|reflexivity].
        intros H'. apply IHa; assumption.
    + intros s ps [|d'] Hd H; [lia|]. assert (Hd' : d <= d') by lia.
      cbn [object_items] in *.
      apply pbind_stable; [exact H|reflexivity|].
      intros [k r1] _. cbn [fst snd].
      destruct (skip_ws r1) as [|c r2]; [reflexivity|].
      destruct (N.eqb c COLON); [|reflexivity].
      intros H'. apply pbind_stable; [exact H'| |].
      * intros Hs. apply IHs; assumption.
      * intros [v1 r3] _. cbn [fst snd].
        destruct (skip_ws r3) as [|c' r4]; [reflexivity|].
        destruct (N.eqb c' RBRACE); [reflexivity|].
        destruct (N.eqb c' COMMA); [|reflexivity].
        destruct (skip_ws r4) as [|q r5]; [reflexivity|].
        destruct (N.eqb q QUOTE); [|reflexivity].
        intros H''. apply IHo; assumption.
Qed.

Lemma scan_once_mono d d' s r :
  d <= d' -> scan_once d s = POk r -> scan_once d' s = POk r.
Proof.
  intros Hd H. rewrite <- H. apply scan_stable; [exact Hd|]. rewrite H. discriminate.
Qed.

Lemma array_items_mono d d' s vs r :
  d <= d' -> array_items d s vs = POk r -> array_items d' s vs = POk r.
Proof.
  intros Hd H. rewrite <- H. apply scan_stable; [exact Hd|]. rewrite H. discriminate.
Qed.

Lemma object_items_mono d d' s ps r :
  d <= d' -> object_items d s ps = POk r -> object_items d' s ps = POk r.
Proof.
  intros Hd H. rewrite <- H. apply scan_stable; [exact Hd|]. rewrite H. discriminate.
Qed.

(** *** Induction on values *)

Lemma json_rect' (P : json -> Prop) :
  P JNull -> (forall b, P (JBool b)) -> (forall z, P (JInt z)) ->
  (forall f, P (JFloat f)) -> (forall s, P (JStr s)) ->
  (forall l, Forall P l -> P (JList l)) ->
  (forall d, Forall (fun kv => P (snd kv)) d -> P (JDict d)) ->
  forall v, P v.
Proof.
  intros Hn Hb Hi Hf Hs Hl Hd.
  fix IH 1. intros [| b | z | f | s | l | d].
  - exact Hn.
  - apply Hb.
  - apply Hi.
  - apply Hf.
  - apply Hs.
  - apply Hl. induction l as [|x l IHl]; constructor; [apply IH|exact IHl].
  - apply Hd. induction d as [|[k x] d IHd]; constructor; [apply IH|exact IHd].
Qed.

(** *** Strings *)

Local Open Scope N_scope.

Lemma hex_val_digit n : n < 16 -> hex_val (hex_digit n) = Some n.
Proof.
  intros H. destruct n as [|p]; [reflexivity|].
  do 4 (destruct p as [p|p|]; try reflexivity); exfalso; lia.
Qed.

Lemma decode_u00 c :
  c < 32 ->
  decode_uXXXX 48 48 (hex_digit (c / 16)) (hex_digit (c mod 16)) = Some c.
Proof.
  intros H. unfold decode_uXXXX.
  change (hex_val 48) with (Some 0).
  rewrite !hex_val_digit.
  - f_equal. pose proof (N.div_mod c 16). lia.
  - apply N.mod_lt. lia.
  - apply N.Div0.div_lt_upper_bound. lia.
Qed.

Lemma scanstring_unfold_u h1 h2 h3 h4 uni t :
  decode_uXXXX h1 h2 h3 h4 = Some uni ->
  is_high_surrogate uni = false ->
  scanstring (BACKSLASH :: 117 :: h1 :: h2 :: h3 :: h4 :: t)
  = pcons uni (scanstring t).
Proof.
  intros Hd Hh. cbn [scanstring].
  change (N.eqb BACKSLASH QUOTE) with false.
  change (N.eqb BACKSLASH BACKSLASH) with true.
  change (N.eqb 117 117) with true. cbv iota.
  rewrite Hd, Hh.
  destruct t as [|b [|u [|g1 [|g2 [|g3 [|g4 r3]]]]]]; reflexivity.
Qed.

Lemma scanstring_unfold_esc esc ch t :
  esc <> 117 -> backslash_char esc = Some ch ->
  scanstring (BACKSLASH :: esc :: t) = pcons ch (scanstring t).
Proof.
  intros He Hb. cbn [scanstring].
  change (N.eqb BACKSLASH QUOTE) with false.
  change (N.eqb BACKSLASH BACKSLASH) with true. cbv iota.
  destruct (N.eqb_spec esc 117); [congruence|]. rewrite Hb. reflexivity.
Qed.

Lemma scanstring_unfold_plain c t :
  c <> QUOTE -> c <> BACKSLASH -> 32 <= c ->
  scanstring (c :: t) = pcons c (scanstring t).
Proof.
  intros Hq Hb Hc. cbn [scanstring].
  destruct (N.eqb_spec c QUOTE); [congruence|].
  destruct (N.eqb_spec c BACKSLASH); [congruence|].
  destruct (N.ltb_spec c 32); [lia|]. reflexivity.
Qed.

Lemma scanstring_escape_char c t :
  scanstring (escape_char c ++ t) = pcons c (scanstring t).
Proof.
  unfold escape_char.
  destruct (N.eqb_spec c QUOTE) as [->|Hq].
  { apply scanstring_unfold_esc; [discriminate|reflexivity]. }
  destruct (N.eqb_spec c BACKSLASH) as [->|Hb].
  { apply scanstring_unfold_esc; [discriminate|reflexivity]. }
  destruct (N.eqb_spec c 10) as [->|H10].
  { apply scanstring_unfold_esc; [discriminate|reflexivity]. }
  destruct (N.eqb_spec c 13) as [->|H13].
  { apply scanstring_unfold_esc; [discriminate|reflexivity]. }
  destruct (N.eqb_spec c 9) as [->|H9].
  { apply scanstring_unfold_esc; [discriminate|reflexivity]. }
  destruct (N.eqb_spec c 8) as [->|H8].
  { apply scanstring_unfold_esc; [discriminate|reflexivity]. }
  destruct (N.eqb_spec c 12) as [->|H12].
  { apply scanstring_unfold_esc; [discriminate|reflexivity]. }
  destruct (N.ltb_spec c 32) as [Hlt|Hge].
  - apply scanstring_unfold_u; [apply decode_u00; exact Hlt|].
    unfold is_high_surrogate. destruct (N.leb_spec 55296 c); [lia|reflexivity].
  - apply scanstring_unfold_plain; assumption.
Qed.

(** A string literal written by the encoder reads back as the string. *)
Lemma scanstring_escape s rest :
  scanstring (concat (map escape_char s) ++ QUOTE :: rest) = POk (s, rest).
Proof.
  induction s as [|c s IH]; simpl.
  - reflexivity.
  - rewrite <- app_assoc, scanstring_escape_char, IH. reflexivity.
Qed.

Lemma encode_basestring_reads_back d s rest :
  scan_once (S d) (encode_basestring s ++ rest) = POk (JStr s, rest).
Proof.
  unfold encode_basestring. cbn [app scan_once].
  change (N.eqb QUOTE QUOTE) with true. cbv iota.
  rewrite <- app_assoc. cbn [app]. rewrite scanstring_escape. reflexivity.
Qed.

(** *** Integers *)

Lemma delimited_head rest :
  delimited rest ->
  match rest with
  | [] => True
  | c :: _ => is_digit c = false /\ c <> DOT /\ c <> 101 /\ c <> 69
              /\ is_ws c = false
  end.
Proof.
  destruct rest as [|c r]; [trivial|]. simpl.
  intros [->|[->| ->]]; repeat split; discriminate.
Qed.

Lemma span_digits_uint u rest :
  match rest with [] => True | c :: _ => is_digit c = false end ->
  span_digits (uint_chars u ++ rest) = (uint_chars u, rest).
Proof.
  intros Hr. induction u; cbn [uint_chars app span_digits];
    try (change (is_digit 48) with true); try (change (is_digit 49) with true);
    try (change (is_digit 50) with true); try (change (is_digit 51) with true);
    try (change (is_digit 52) with true); try (change (is_digit 53) with true);
    try (change (is_digit 54) with true); try (change (is_digit 55) with true);
    try (change (is_digit 56) with true); try (change (is_digit 57) with true);
    cbv iota; try (rewrite IHu; reflexivity).
  destruct rest as [|c r]; [reflexivity|]. cbn [span_digits]. rewrite Hr.
  reflexivity.
Qed.

Lemma digits_value_acc u : forall acc,
  fold_left digit_step (uint_chars u) (Zpos acc)
  = Zpos (Pos.of_uint_acc u acc).
Proof.
  induction u; intros acc; cbn [uint_chars fold_left Pos.of_uint_acc];
    try reflexivity; unfold digit_step at 2;
    match goal with |- fold_left _ _ ?z = _ =>
      match goal with |- _ = Zpos (Pos.of_uint_acc _ ?p) =>
        replace z with (Zpos p) by lia end end;
    apply IHu.
Qed.

Lemma digits_value_uint u :
  digits_value (uint_chars u) = Z.of_N (Pos.of_uint u).
Proof.
  unfold digits_value.
  induction u; cbn [uint_chars fold_left Pos.of_uint]; try reflexivity;
    try (change (digit_step 0 48) with 0%Z; exact IHu);
    cbn [Z.of_N]; rewrite <- digits_value_acc; reflexivity.
Qed.

Lemma nzhead_head u :
  match Decimal.nzhead u with Decimal.D0 _ => False | _ => True end.
Proof. induction u; simpl; auto. Qed.

Lemma to_uint_shape p :
  exists c ds, uint_chars (Pos.to_uint p) = c :: ds /\ c <> ZERO /\
    is_digit c = true /\ exists u', ds = uint_chars u'.
Proof.
  assert (Hn : Pos.to_uint p = Decimal.unorm (Pos.to_uint p)).
  { pose proof (DecimalPos.Unsigned.to_of (Pos.to_uint p)) as H.
    rewrite DecimalPos.Unsigned.of_to in H. exact H. }
  pose proof (DecimalPos.Unsigned.to_uint_nonzero p) as Hz.
  pose proof (nzhead_head (Pos.to_uint p)) as Hh.
  unfold Decimal.unorm in Hn.
  destruct (Decimal.nzhead (Pos.to_uint p)) as [|u|u|u|u|u|u|u|u|u|u] eqn:E;
    try contradiction;
    rewrite Hn; cbn [uint_chars]; eexists _, _;
    (split; [reflexivity|]); (split; [discriminate|]);
    (split; [reflexivity|]); eexists; reflexivity.
Qed.

(** The numeral written for an integer reads back as the integer. *)
Lemma int_repr_reads_back z rest :
  delimited rest -> match_number (int_repr z ++ rest) = Some (JInt z, rest).
Proof.
  intros Hd. apply delimited_head in Hd.
  assert (Hdig : match rest with [] => True | c :: _ => is_digit c = false end).
  { destruct rest; [trivial|]. apply Hd. }
  assert (Hfrac : match_frac rest = ([], rest)).
  { destruct rest as [|c r]; [reflexivity|]. cbn [match_frac].
    destruct Hd as (_ & Hdot & _). destruct (N.eqb_spec c DOT); [congruence|].
    reflexivity. }
  assert (Hexp : match_exp rest = (None, rest)).
  { destruct rest as [|c r]; [reflexivity|]. cbn [match_exp].
    destruct Hd as (_ & _ & He & HE & _).
    destruct (N.eqb_spec c 101); [congruence|].
    destruct (N.eqb_spec c 69); [congruence|]. reflexivity. }
  assert (Hpos : forall p s1,
    s1 = uint_chars (Pos.to_uint p) ++ rest ->
    match_integer s1 = Some (uint_chars (Pos.to_uint p), rest)).
  { intros p s1 ->. destruct (to_uint_shape p) as (c & ds & E & Hc & Hdg & u' & ->).
    rewrite E. cbn [app match_integer].
    destruct (N.eqb_spec c ZERO); [congruence|]. rewrite Hdg.
    rewrite span_digits_uint by exact Hdig. reflexivity. }
  assert (Hval : forall p, digits_value (uint_chars (Pos.to_uint p)) = Zpos p).
  { intros p. rewrite digits_value_uint, DecimalPos.Unsigned.of_to. reflexivity. }
  unfold int_repr, match_number. destruct z as [|p|p]; cbn [Z.to_int].
  - cbn [uint_chars app]. change (N.eqb 48 MINUS) with false.
    cbv iota. cbn [match_integer]. change (N.eqb 48 ZERO) with true. cbv iota.
    rewrite Hfrac, Hexp. reflexivity.
  - destruct (to_uint_shape p) as (c & ds & E & Hc & Hdg & _).
    assert (Hm : N.eqb c MINUS = false).
    { destruct (N.eqb_spec c MINUS) as [->|]; [discriminate|reflexivity]. }
    set (s := uint_chars (Pos.to_uint p) ++ rest).
    assert (Hs : match s with
                 | c0 :: r => if N.eqb c0 MINUS then (true, r) else (false, s)
                 | [] => (false, s)
                 end = (false, s)).
    { subst s. rewrite E. cbn [app]. rewrite Hm. reflexivity. }
    rewrite Hs. subst s.
    rewrite (Hpos p _ eq_refl), Hfrac, Hexp, Hval. reflexivity.
  - cbn [app]. change (N.eqb MINUS MINUS) with true. cbv iota.
    rewrite (Hpos p _ eq_refl), Hfrac, Hexp, Hval. reflexivity.
Qed.

(** *** The first character of a value *)

Lemma scan_once_head d c r x :
  scan_once d (c :: r) = POk x ->
  is_ws c = false /\ c <> RBRACKET /\ c <> BOM.
Proof.
  intros H. destruct d as [|d]; [discriminate|].
  assert (Hbad : forall c0, c = c0 ->
            scan_once (S d) (c0 :: r) = PErr -> False).
  { intros c0 -> E. rewrite E in H. discriminate. }
  split_and!.
  - destruct (is_ws c) eqn:Ew; [|reflexivity]. exfalso.
    unfold is_ws in Ew. rewrite !orb_true_iff, !N.eqb_eq in Ew.
    destruct Ew as [[[E|E]|E]|E]; apply (Hbad _ E); reflexivity.
  - intros E. apply (Hbad _ E). reflexivity.
  - intros E. apply (Hbad _ E). reflexivity.
Qed.

Lemma scan_once_nonempty d s x : scan_once d s = POk x -> s <> [].
Proof. intros H ->. destruct d; discriminate. Qed.

Lemma skip_ws_head c r : is_ws c = false -> skip_ws (c :: r) = c :: r.
Proof. intros H. simpl. rewrite H. reflexivity. Qed.

(** A text on which [scan_once] succeeds does not start with whitespace. *)
Lemma scan_once_skip_ws d s x : scan_once d s = POk x -> skip_ws s = s.
Proof.
  intros H. destruct s as [|c r]; [reflexivity|].
  apply scan_once_head in H as (Hw & _). apply skip_ws_head, Hw.
Qed.

Lemma array_items_skip_ws d s vs x :
  array_items d s vs = POk x -> skip_ws s = s.
Proof.
  destruct d as [|d]; [discriminate|]. cbn [array_items]. intros H.
  apply pbind_ok in H as (p & H & _). destruct p. eapply scan_once_skip_ws, H.
Qed.

Lemma scan_once_scalar d s :
  match s with
  | [] => True
  | c :: _ => c <> QUOTE /\ c <> LBRACE /\ c <> LBRACKET
  end ->
  scan_once (S d) s = scan_scalar s.
Proof.
  destruct s as [|c r]; [reflexivity|]. intros (H1 & H2 & H3).
  cbn [scan_once].
  destruct (N.eqb_spec c QUOTE); [congruence|].
  destruct (N.eqb_spec c LBRACE); [congruence|].
  destruct (N.eqb_spec c LBRACKET); [congruence|]. reflexivity.
Qed.

Lemma match_number_head c r x :
  match_number (c :: r) = Some x -> c = MINUS \/ is_digit c = true.
Proof.
  unfold match_number.
  destruct (N.eqb_spec c MINUS) as [->|Hm]; [auto|].
  cbn [match_integer].
  destruct (N.eqb_spec c ZERO) as [->|Hz]; [auto|].
  destruct (is_digit c); [auto|discriminate].
Qed.

Lemma strip_prefix_head a p c r x :
  strip_prefix (a :: p) (c :: r) = Some x -> c = a.
Proof.
  simpl. destruct (N.eqb_spec a c); [congruence|discriminate].
Qed.

Lemma scan_once_number d s vr :
  match_number s = Some vr -> scan_once (S d) s = POk vr.
Proof.
  intros H. destruct s as [|c r]; [discriminate|].
  pose proof (match_number_head _ _ _ H) as Hc.
  assert (Hne : forall c0, is_digit c0 = false -> c0 <> MINUS -> c <> c0).
  { intros c0 H1 H2 ->. destruct Hc; congruence. }
  rewrite scan_once_scalar.
  - unfold scan_scalar.
    destruct (strip_prefix lit_null (c :: r)) eqn:E1.
    { apply strip_prefix_head in E1. exfalso. revert E1. apply Hne; [reflexivity|discriminate]. }
    destruct (strip_prefix lit_true (c :: r)) eqn:E2.
    { apply strip_prefix_head in E2. exfalso. revert E2. apply Hne; [reflexivity|discriminate]. }
    destruct (strip_prefix lit_false (c :: r)) eqn:E3.
    { apply strip_prefix_head in E3. exfalso. revert E3. apply Hne; [reflexivity|discriminate]. }
    rewrite H. reflexivity.
  - split_and!; apply Hne; try reflexivity; discriminate.
Qed.

(** *** Dicts with distinct keys *)

Lemma str_eqb_eq a b : str_eqb a b = true <-> a = b.
Proof. unfold str_eqb. apply bool_decide_eq_true. Qed.

Lemma str_eqb_neq a b : str_eqb a b = false <-> a <> b.
Proof. unfold str_eqb. apply bool_decide_eq_false. Qed.

Lemma dict_set_fresh d k v :
  forallb (fun kv => negb (str_eqb (fst kv) k)) d = true ->
  dict_set d k v = d ++ [(k, v)].
Proof.
  induction d as [|[k' v'] d IH]; simpl; [reflexivity|].
  intros H. apply andb_true_iff in H as [H1 H2].
  apply negb_true_iff in H1. rewrite H1, IH by exact H2. reflexivity.
Qed.

Lemma distinct_app_fresh ks k ks' :
  distinct (ks ++ k :: ks') = true ->
  forallb (fun k' => negb (str_eqb k' k)) ks = true.
Proof.
  induction ks as [|a ks IH]; simpl; [reflexivity|].
  intros H. apply andb_true_iff in H as [H1 H2].
  rewrite IH by exact H2. rewrite andb_true_r.
  apply negb_true_iff in H1. apply negb_true_iff.
  destruct (str_eqb a k) eqn:E; [|reflexivity].
  apply str_eqb_eq in E. subst a.
  assert (existsb (str_eqb k) (ks ++ k :: ks') = true); [|congruence].
  apply existsb_exists. exists k. split.
  - apply in_or_app. right. left. reflexivity.
  - apply str_eqb_eq. reflexivity.
Qed.

Lemma fold_dict_set_distinct d : forall acc,
  distinct (map fst (acc ++ d)) = true ->
  fold_left (fun d kv => dict_set d (fst kv) (snd kv)) d acc = acc ++ d.
Proof.
  induction d as [|[k v] d IH]; intros acc H; simpl.
  - rewrite app_nil_r. reflexivity.
  - rewrite dict_set_fresh.
    + rewrite IH; rewrite <- app_assoc; [reflexivity|exact H].
    + rewrite map_app in H. simpl in H. apply distinct_app_fresh in H.
      rewrite forallb_forall in *. intros kv Hkv. apply H.
      apply in_map. exact Hkv.
Qed.

Lemma dict_of_pairs_distinct d :
  distinct (map fst d) = true -> dict_of_pairs d = d.
Proof. intros H. unfold dict_of_pairs. rewrite fold_dict_set_distinct; auto. Qed.

(** *** The encoder's output reads back *)

Section Encoder.

Variable float_repr : spec_float -> str.

Lemma array_reads_back l :
  l <> [] -> Forall (reads float_repr) l ->
  forall vs rest, exists d,
    array_items d
      (join item_separator (map (dumps float_repr) l) ++ RBRACKET :: rest) vs
    = POk (JList (vs ++ l), rest).
Proof.
  induction l as [|v l IH]; [congruence|]. intros _ Hall vs rest.
  inversion Hall as [|? ? Hv Hl]; subst.
  destruct l as [|v2 l'].
  - cbn [map join]. destruct (Hv (RBRACKET :: rest)) as [d Hd].
    { simpl. auto. }
    exists (S d). cbn [array_items]. rewrite Hd. simpl.
    reflexivity.
  - destruct (IH ltac:(discriminate) Hl (vs ++ [v]) rest) as [d2 Hd2].
    set (X := join item_separator (map (dumps float_repr) (v2 :: l'))
              ++ RBRACKET :: rest) in *.
    assert (Hjoin : join item_separator (map (dumps float_repr) (v :: v2 :: l'))
                    ++ RBRACKET :: rest
                    = dumps float_repr v ++ COMMA :: SPACE :: X).
    { subst X. cbn [map join]. rewrite <- !app_assoc. reflexivity. }
    rewrite Hjoin.
    destruct (Hv (COMMA :: SPACE :: X)) as [d1 Hd1].
    { simpl. auto. }
    exists (S (Nat.max d1 d2)). cbn [array_items].
    rewrite (scan_once_mono d1 _ _ _ (Nat.le_max_l d1 d2) Hd1).
    simpl.
    rewrite (array_items_skip_ws _ _ _ _ Hd2).
    rewrite (array_items_mono d2 _ _ _ _ (Nat.le_max_r d1 d2) Hd2).
    rewrite <- app_assoc. reflexivity.
Qed.

Lemma member_text kv :
  encode_basestring (fst kv) ++ key_separator ++ dumps float_repr (snd kv)
  = QUOTE :: member_tail float_repr kv.
Proof.
  unfold encode_basestring, member_tail, key_separator. simpl.
  rewrite <- app_assoc. reflexivity.
Qed.

Lemma object_reads_back d :
  d <> [] -> Forall (fun kv => reads float_repr (snd kv)) d ->
  forall ps rest, exists n r,
    join item_separator
      (map (fun kv => encode_basestring (fst kv) ++ key_separator
                      ++ dumps float_repr (snd kv)) d) ++ RBRACE :: rest
    = QUOTE :: r /\
    object_items n r ps = POk (JDict (dict_of_pairs (ps ++ d)), rest).
Proof.
  induction d as [|kv d IH]; [congruence|]. intros _ Hall ps rest.
  inversion Hall as [|? ? Hv Hl]; subst.
  assert (Hstep : forall T n,
    scan_once n (dumps float_repr (snd kv) ++ T) = POk (snd kv, T) ->
    object_items (S n) (member_tail float_repr kv ++ T) ps
    = (let pairs := ps ++ [(fst kv, snd kv)] in
       match skip_ws T with
       | c' :: r' =>
           if N.eqb c' RBRACE then POk (JDict (dict_of_pairs pairs), r')
           else if N.eqb c' COMMA then
             match skip_ws r' with
             | q :: r'' =>
                 if N.eqb q QUOTE then object_items n r'' pairs else PErr
             | [] => PErr
             end
           else PErr
       | [] => PErr
       end)).
  { intros T n Hn. cbn [object_items]. unfold member_tail.
    rewrite <- app_assoc. cbn [app]. rewrite scanstring_escape. simpl.
    rewrite (scan_once_skip_ws _ _ _ Hn), Hn. reflexivity. }
  destruct d as [|kv2 d'].
  - cbn [map join]. rewrite member_text. cbn [app].
    destruct (Hv (RBRACE :: rest)) as [n Hn]. { simpl. auto. }
    exists (S n), (member_tail float_repr kv ++ RBRACE :: rest). split; [reflexivity|].
    rewrite (Hstep _ _ Hn). simpl. destruct kv. reflexivity.
  - destruct (IH ltac:(discriminate) Hl (ps ++ [(fst kv, snd kv)]) rest)
      as (n2 & r2 & Hr2 & Hn2).
    cbn [map join] in *. rewrite member_text. rewrite <- !app_assoc.
    cbn [app]. rewrite <- !app_assoc in Hr2. rewrite Hr2.
    destruct (Hv (COMMA :: SPACE :: QUOTE :: r2)) as [n1 Hn1]. { simpl. auto. }
    exists (S (Nat.max n1 n2)), (member_tail float_repr kv ++ COMMA :: SPACE :: QUOTE :: r2).
    split; [reflexivity|].
    rewrite (Hstep _ _ (scan_once_mono n1 _ _ _ (Nat.le_max_l n1 n2) Hn1)).
    simpl.
    rewrite (object_items_mono n2 _ _ _ _ (Nat.le_max_r n1 n2) Hn2).
    rewrite <- app_assoc. destruct kv. reflexivity.
Qed.

Lemma literal_reads lit v rest :
  scan_once 1 (lit ++ rest) = POk (v, rest) ->
  exists d, scan_once d (lit ++ rest) = POk (v, rest).
Proof. eauto. Qed.

Lemma dumps_reads_back v :
  wf v = true ->
  (forall f, In f (floats_of v) -> reads_back float_repr f) ->
  reads float_repr v.
Proof.
  induction v as [| b | z | f | s | l IH | d IH] using json_rect';
    intros Hwf Hfl rest Hrest.
  - exists 1%nat. reflexivity.
  - exists 1%nat. destruct b; reflexivity.
  - exists 1%nat. apply scan_once_number, int_repr_reads_back, Hrest.
  - destruct f as [sg|sg| |sg m e].
    + exists 1%nat. apply Hfl; [left; reflexivity|exact Hrest].
    + exists 1%nat. destruct sg; reflexivity.
    + exists 1%nat. reflexivity.
    + exists 1%nat. apply Hfl; [left; reflexivity|exact Hrest].
  - exists 1%nat. apply encode_basestring_reads_back.
  - cbn [dumps]. destruct l as [|v l'].
    + exists 1%nat. reflexivity.
    + assert (Hall : Forall (reads float_repr) (v :: l')).
      { rewrite Forall_forall in *. intros x Hx. apply IH; [exact Hx| |].
        - cbn [wf] in Hwf. rewrite forallb_forall in Hwf. apply Hwf.
          apply list_elem_of_In. exact Hx.
        - intros f Hf. apply Hfl. cbn [floats_of]. apply in_flat_map.
          exists x. split; [apply list_elem_of_In; exact Hx|exact Hf]. }
      assert (Hne : v :: l' <> []) by discriminate.
      destruct (array_reads_back _ Hne Hall [] rest) as [n Hn].
      exists (S n). cbn [app scan_once].
      change (N.eqb LBRACKET QUOTE) with false.
      change (N.eqb LBRACKET LBRACE) with false.
      change (N.eqb LBRACKET LBRACKET) with true. cbv iota.
      rewrite <- app_assoc. cbn [app].
      rewrite (array_items_skip_ws _ _ _ _ Hn).
      destruct n as [|n']; [discriminate|].
      pose proof Hn as Hn'. cbn [array_items] in Hn'.
      apply pbind_ok in Hn' as ([v1 r1] & Hs & _).
      destruct (join item_separator (map (dumps float_repr) (v :: l'))
                ++ RBRACKET :: rest) as [|c r] eqn:E.
      { apply scan_once_nonempty in Hs. congruence. }
      apply scan_once_head in Hs as (_ & Hc & _).
      destruct (N.eqb_spec c RBRACKET); [congruence|]. exact Hn.
  - cbn [dumps]. destruct d as [|kv d'].
    + exists 1%nat. reflexivity.
    + assert (Hall : Forall (fun kv => reads float_repr (snd kv)) (kv :: d')).
      { rewrite Forall_forall in *. intros x Hx. apply IH; [exact Hx| |].
        - cbn [wf] in Hwf. apply andb_true_iff in Hwf as [_ Hwf].
          rewrite forallb_forall in Hwf. apply Hwf.
          apply list_elem_of_In. exact Hx.
        - intros f Hf. apply Hfl. cbn [floats_of]. apply in_flat_map.
          exists x. split; [apply list_elem_of_In; exact Hx|exact Hf]. }
      assert (Hne : kv :: d' <> []) by discriminate.
      destruct (object_reads_back _ Hne Hall [] rest) as (n & r & Hr & Hn).
      exists (S n). cbn [app scan_once].
      change (N.eqb LBRACE QUOTE) with false.
      change (N.eqb LBRACE LBRACE) with true. cbv iota.
      rewrite <- app_assoc. cbn [app]. rewrite Hr.
      change (skip_ws (QUOTE :: r)) with (QUOTE :: r). cbv iota.
      change (N.eqb QUOTE RBRACE) with false.
      change (N.eqb QUOTE QUOTE) with true. cbv iota.
      rewrite Hn. cbn [app].
      cbn [wf] in Hwf. apply andb_true_iff in Hwf as [Hk _].
      rewrite dict_of_pairs_distinct by exact Hk. reflexivity.
Qed.

(** Decoding what the encoder wrote gives the value back. *)
Lemma loads_dumps v :
  wf v = true ->
  (forall f, In f (floats_of v) -> reads_back float_repr f) ->
  loads (dumps float_repr v) = Ok v.
Proof.
  intros Hwf Hfl.
  destruct (dumps_reads_back v Hwf Hfl [] I) as [d Hd].
  rewrite app_nil_r in Hd.
  set (s := dumps float_repr v) in *.
  assert (Hne : s <> []) by (eapply scan_once_nonempty, Hd).
  destruct s as [|c r] eqn:Es; [congruence|].
  pose proof (scan_once_head _ _ _ _ Hd) as (Hw & _ & Hb).
  unfold loads.
  assert (Hbom : startswith (c :: r) [BOM] = false).
  { unfold startswith. cbn [strip_prefix].
    destruct (N.eqb_spec BOM c); [congruence|reflexivity]. }
  rewrite Hbom. unfold decode. rewrite (skip_ws_head _ _ Hw).
  set (F := (2 * length (c :: r) + 2)%nat).
  assert (HF : scan_once F (c :: r) <> PDeep).
  { apply scan_not_deep. subst F. lia. }
  assert (E : scan_once F (c :: r) = POk (v, [])).
  { pose proof (proj1 (scan_stable F) (c :: r) (Nat.max F d)
                  (Nat.le_max_l F d) HF) as E1.
    rewrite <- E1.
    apply (scan_once_mono d); [apply Nat.le_max_r|exact Hd]. }
  rewrite E. reflexivity.
Qed.

End Encoder.

(** *** Decoded values have distinct keys *)

Lemma existsb_dict_set p d k v :
  existsb p (map fst (dict_set d k v)) = true ->
  existsb p (map fst d) = true \/ p k = true.
Proof.
  induction d as [|[k' v'] d IH]; simpl.
  - rewrite orb_false_r. auto.
  - destruct (str_eqb k' k); simpl; [auto|].
    rewrite !orb_true_iff. intros [H|H]; [auto|].
    destruct (IH H); auto.
Qed.

Lemma distinct_dict_set d k v :
  distinct (map fst d) = true -> distinct (map fst (dict_set d k v)) = true.
Proof.
  induction d as [|[k' v'] d IH]; simpl; [reflexivity|].
  intros H. apply andb_true_iff in H as [H1 H2].
  destruct (str_eqb k' k) eqn:E; simpl.
  - rewrite H1, H2. reflexivity.
  - rewrite IH by exact H2. rewrite andb_true_r.
    apply negb_true_iff. apply negb_true_iff in H1.
    destruct (existsb (str_eqb k') (map fst (dict_set d k v))) eqn:Ex;
      [|reflexivity].
    apply existsb_dict_set in Ex as [Ex|Ex]; congruence.
Qed.

Lemma wf_dict_set d k v :
  forallb (fun kv => wf (snd kv)) d = true -> wf v = true ->
  forallb (fun kv => wf (snd kv)) (dict_set d k v) = true.
Proof.
  induction d as [|[k' v'] d IH]; simpl; intros H Hv.
  - rewrite Hv. reflexivity.
  - apply andb_true_iff in H as [H1 H2].
    destruct (str_eqb k' k); simpl.
    + rewrite Hv, H2. reflexivity.
    + rewrite H1, IH by assumption. reflexivity.
Qed.

Lemma wf_dict_of_pairs ps :
  forallb (fun kv => wf (snd kv)) ps = true ->
  wf (JDict (dict_of_pairs ps)) = true.
Proof.
  unfold dict_of_pairs.
  assert (H : forall acc,
    distinct (map fst acc) = true ->
    forallb (fun kv => wf (snd kv)) acc = true ->
    forallb (fun kv => wf (snd kv)) ps = true ->
    wf (JDict (fold_left (fun d kv => dict_set d (fst kv) (snd kv)) ps acc))
    = true).
  { induction ps as [|[k v] ps IH]; intros acc Hd Hw Hp; simpl.
    - rewrite Hd, Hw. reflexivity.
    - simpl in Hp. apply andb_true_iff in Hp as [Hv Hp].
      apply IH; [apply distinct_dict_set, Hd|apply wf_dict_set; assumption|
                 exact Hp]. }
  apply H; reflexivity.
Qed.

Lemma match_number_wf s v r : match_number s = Some (v, r) -> wf v = true.
Proof.
  unfold match_number.
  destruct (match s with
            | c :: r0 => if N.eqb c MINUS then (true, r0) else (false, s)
            | [] => (false, s) end) as [neg s1].
  destruct (match_integer s1) as [[ip s2]|]; [|discriminate].
  destruct (match_frac s2) as [fd s3]. destruct (match_exp s3) as [ex s4].
  destruct fd, ex; intros H; inversion H; reflexivity.
Qed.

Lemma scan_scalar_wf s v r : scan_scalar s = POk (v, r) -> wf v = true.
Proof.
  unfold scan_scalar. intros H.
  repeat match type of H with
  | context [strip_prefix ?p s] =>
      destruct (strip_prefix p s); [inversion H; reflexivity|]
  | context [match_number s] =>
      let E := fresh "E" in
      destruct (match_number s) as [[v' r']|] eqn:E;
      [apply match_number_wf in E; inversion H; subst; exact E|]
  end.
  discriminate.
Qed.

Lemma forallb_snoc {A} (p : A -> bool) l x :
  forallb p (l ++ [x]) = forallb p l && p x.
Proof. rewrite forallb_app. simpl. rewrite andb_true_r. reflexivity. Qed.

Lemma scan_wf d :
  (forall s v r, scan_once d s = POk (v, r) -> wf v = true) /\
  (forall s vs v r, forallb wf vs = true ->
     array_items d s vs = POk (v, r) -> wf v = true) /\
  (forall s ps v r, forallb (fun kv => wf (snd kv)) ps = true ->
     object_items d s ps = POk (v, r) -> wf v = true).
Proof.
  induction d as [|d (IHs & IHa & IHo)].
  - repeat split; intros; discriminate.
  - repeat split.
    + intros s v r H. destruct s as [|c s1]; [discriminate|].
      cbn [scan_once] in H.
      destruct (N.eqb c QUOTE).
      { apply pbind_ok in H as ([x r'] & _ & H). inversion H; reflexivity. }
      destruct (N.eqb c LBRACE).
      { destruct (skip_ws s1) as [|c' r']; [discriminate|].
        destruct (N.eqb c' RBRACE); [inversion H; reflexivity|].
        destruct (N.eqb c' QUOTE); [|discriminate].
        eapply IHo; [|exact H]. reflexivity. }
      destruct (N.eqb c LBRACKET).
      { destruct (skip_ws s1) as [|c' r']; [discriminate|].
        destruct (N.eqb c' RBRACKET); [inversion H; reflexivity|].
        eapply IHa; [|exact H]. reflexivity. }
      eapply scan_scalar_wf, H.
    + intros s vs v r Hvs H. cbn [array_items] in H.
      apply pbind_ok in H as ([v1 r1] & Hs & H). apply IHs in Hs.
      cbn [fst snd] in H.
      assert (Hvs' : forallb wf (vs ++ [v1]) = true).
      { rewrite forallb_snoc, Hvs, Hs. reflexivity. }
      destruct (skip_ws r1) as [|c r2]; [discriminate|].
      destruct (N.eqb c RBRACKET); [inversion H; subst; exact Hvs'|].
      destruct (N.eqb c COMMA); [|discriminate].
      eapply IHa; [exact Hvs'|exact H].
    + intros s ps v r Hps H. cbn [object_items] in H.
      apply pbind_ok in H as ([k r1] & _ & H). cbn [fst snd] in H.
      destruct (skip_ws r1) as [|c r2]; [discriminate|].
      destruct (N.eqb c COLON); [|discriminate].
      apply pbind_ok in H as ([v1 r3] & Hs & H). apply IHs in Hs.
      cbn [fst snd] in H.
      assert (Hps' : forallb (fun kv => wf (snd kv)) (ps ++ [(k, v1)]) = true).
      { rewrite forallb_snoc, Hps. simpl. rewrite Hs. reflexivity. }
      destruct (skip_ws r3) as [|c' r4]; [discriminate|].
      destruct (N.eqb c' RBRACE).
      { inversion H; subst. apply wf_dict_of_pairs, Hps'. }
      destruct (N.eqb c' COMMA); [|discriminate].
      destruct (skip_ws r4) as [|q r5]; [discriminate|].
      destruct (N.eqb q QUOTE); [|discriminate].
      eapply IHo; [exact Hps'|exact H].
Qed.

(** The keys of every dict built by [json.loads] are pairwise distinct. *)
Lemma loads_wf s v : loads s = Ok v -> wf v = true.
Proof.
  unfold loads. destruct (startswith s [BOM]); [discriminate|].
  destruct (decode _ s) as [v'| |] eqn:E; try discriminate.
  intros H; inversion H; subst. unfold decode in E.
  apply pbind_ok in E as ([v1 r1] & Hs & E). cbn [fst snd] in E.
  destruct (skip_ws r1); inversion E; subst.
  exact (proj1 (scan_wf _) _ _ _ Hs).
Qed.

End RoundTrip.

(** * Round trip, removal, insertion and export *)

Module StoreClaims.

Import JsonFacts Raw RawFacts RoundTrip Examples.

Local Open Scope Z_scope.

Lemma decode_span_some s hotwords :
  decode_span s = Some hotwords ->
  loads s = Ok (JList hotwords) /\ is_hotword_list (JList hotwords) = Some hotwords.
Proof.
  unfold decode_span. destruct (loads s) as [v|]; [|discriminate].
  intros H. pose proof H as H'.
  apply RawClaims.is_hotword_list_some in H as (-> & _). auto.
Qed.

(** C8. Encoding a decoded collection and decoding the text again gives the
    same collection: the same number of entries and, at every position, the
    same value for every field. *)
Theorem C8_encode_decode_round_trip float_repr s hotwords :
  decode_span s = Some hotwords ->
  (forall f, In f (floats_of (JList hotwords)) -> reads_back float_repr f) ->
  exists hotwords',
    decode_span (dumps float_repr (JList hotwords)) = Some hotwords' /\
    len hotwords' = len hotwords /\
    forall i hw, hotwords !! i = Some hw ->
      exists hw', hotwords' !! i = Some hw' /\
        forall k default, py_get hw' k default = py_get hw k default.
Proof.
  intros Hs Hfl. apply decode_span_some in Hs as (Hl & Hc).
  exists hotwords. split_and!.
  - unfold decode_span.
    rewrite (loads_dumps float_repr _ (loads_wf _ _ Hl) Hfl). exact Hc.
  - reflexivity.
  - intros i hw Hi. exists hw. split; [exact Hi|reflexivity].
Qed.

Lemma repr_one_half_reads_back :
  reads_back repr_one_half (S754_finite false 6755399441055744 (-52)).
Proof.
  intros rest Hd. destruct rest as [|c r]; [reflexivity|].
  destruct Hd as [->|[->| ->]]; reflexivity.
Qed.

Lemma C8_witness :
  exists hotwords,
    decode_span text_float = Some hotwords /\
    (forall f, In f (floats_of (JList hotwords)) ->
       reads_back repr_one_half f) /\
    exists hotwords',
      decode_span (dumps repr_one_half (JList hotwords)) = Some hotwords' /\
      len hotwords' = len hotwords /\
      forall i hw, hotwords !! i = Some hw ->
        exists hw', hotwords' !! i = Some hw' /\
          forall k default, py_get hw' k default = py_get hw k default.
Proof.
  eexists.
  assert (H1 : decode_span text_float = Some
    [JDict [(hw_id, JStr (s2l "1"%string)); (key, JStr (s2l "foo"%string));
            (text_field, JStr (s2l "bar"%string));
            (s2l "timestamp"%string,
             JFloat (S754_finite false 6755399441055744 (-52)))]])
    by (vm_compute; reflexivity).
  assert (H2 : forall f, In f (floats_of (JList
    [JDict [(hw_id, JStr (s2l "1"%string)); (key, JStr (s2l "foo"%string));
            (text_field, JStr (s2l "bar"%string));
            (s2l "timestamp"%string,
             JFloat (S754_finite false 6755399441055744 (-52)))]])) ->
       reads_back repr_one_half f).
  { intros f Hf. simpl in Hf. destruct Hf as [<-|[]].
    apply repr_one_half_reads_back. }
  split; [exact H1|]. split; [exact H2|].
  exact (C8_encode_decode_round_trip repr_one_half text_float _ H1 H2).
Defined.

(** *** Removing entries *)

Lemma stripped_key_entry hw :
  is_entry hw = true -> stripped_key hw = Ok (strip (trigger_key_of hw)).
Proof.
  unfold is_entry, stripped_key, trigger_key_of.
  destruct hw as [| | | | | |d]; try discriminate. simpl.
  destruct (dict_get d key) as [[| | | |s| |]|]; try discriminate; reflexivity.
Qed.

Lemma remove_key_entries hotwords q :
  forallb is_entry hotwords = true ->
  remove_key hotwords q
  = Ok (List.filter (fun hw => negb (matches_key q hw)) hotwords).
Proof.
  induction hotwords as [|hw l IH]; [reflexivity|].
  intros H. cbn [forallb] in H. apply andb_true_iff in H as [He Hl].
  cbn [remove_key List.filter]. rewrite (stripped_key_entry _ He).
  rewrite IH by exact Hl. unfold matches_key at 2. simpl.
  destruct (str_eqb (strip (trigger_key_of hw)) q); reflexivity.
Qed.

Lemma filter_count {A} (p : A -> bool) l :
  len l - len (List.filter (fun x => negb (p x)) l) = len (List.filter p l).
Proof.
  unfold len. induction l as [|x l IH]; simpl; [reflexivity|].
  destruct (p x); simpl; lia.
Qed.

Lemma filter_none {A} (p : A -> bool) l :
  len (List.filter p l) = 0 <-> List.filter (fun x => negb (p x)) l = l.
Proof.
  unfold len. induction l as [|x l IH]; simpl; [tauto|].
  destruct (p x) eqn:E; simpl.
  - split; [lia|]. intros H. exfalso.
    assert (Hl : (length (List.filter (fun x => negb (p x)) l) <= length l)%nat)
      by apply filter_length_le.
    rewrite H in Hl. simpl in Hl. lia.
  - rewrite IH. split; [intros ->; reflexivity|]. intros H. inversion H as [H1].
    rewrite H1. exact H1.
Qed.

Lemma restart_wetype_ok outcome w :
  exists b, restart_wetype outcome w = (fst (restart_wetype outcome w), Ok b).
Proof.
  unfold restart_wetype. destruct outcome as [rc| |]; simpl;
    [destruct (rc =? 0)|..]; simpl; eauto.
Qed.

Lemma raw_delete_spec float_repr w q outcome hotwords :
  read_raw_hotwords (settings_text w) = Ok hotwords ->
  forallb is_entry hotwords = true ->
  let kept := List.filter (fun hw => negb (matches_key q hw)) hotwords in
  let removed := len (List.filter (matches_key q) hotwords) in
  (removed = 0 ->
   Raw.delete_hotword float_repr q outcome w
   = (printed w [MsgNotFound q], Ok tt)) /\
  (removed <> 0 ->
   Raw.delete_hotword float_repr q outcome w
   = (fst (restart_wetype outcome
             (printed (stored w hotWordList (dumps float_repr (JList kept)))
                [MsgDeleted removed])), Ok tt)).
Proof.
  intros Hread Hent kept removed.
  pose proof (filter_count (matches_key q) hotwords) as Hc.
  fold kept removed in Hc.
  unfold Raw.delete_hotword, read_settings, lift, mbind, io_mbind, io_bind.
  rewrite Hread, (remove_key_entries _ q Hent). fold kept.
  split; intros Hr.
  - destruct (Z.eqb_spec (len kept) (len hotwords)); [reflexivity|lia].
  - destruct (Z.eqb_spec (len kept) (len hotwords)); [lia|].
    simpl. rewrite Hc.
    match goal with |- context [restart_wetype outcome ?w1] =>
      destruct (restart_wetype_ok outcome w1) as [b Hb]; rewrite Hb end.
    reflexivity.
Qed.

Lemma rw_delete_spec float_repr w w1 q hotwords :
  Rw.get_hotwords w = (w1, Ok (JList hotwords)) ->
  forallb is_entry hotwords = true ->
  let kept := List.filter (fun hw => negb (matches_key q hw)) hotwords in
  let removed := len (List.filter (matches_key q) hotwords) in
  (removed = 0 ->
   Rw.delete_hotword float_repr q w = (printed w1 [MsgNotFound q], Ok tt)) /\
  (removed <> 0 ->
   Rw.delete_hotword float_repr q w
   = (printed (stored w1 hotWordList (dumps float_repr (JList kept)))
        [MsgSaved; MsgRestartNotice; MsgDeleted removed], Ok tt)).
Proof.
  intros Hget Hent kept removed.
  pose proof (filter_count (matches_key q) hotwords) as Hc.
  fold kept removed in Hc.
  unfold Rw.delete_hotword, lift, mbind, io_mbind, io_bind.
  rewrite Hget. cbn [py_len py_iter].
  rewrite (remove_key_entries _ q Hent). fold kept.
  split; intros Hr.
  - destruct (Z.eqb_spec (len kept) (len hotwords)); [reflexivity|lia].
  - destruct (Z.eqb_spec (len kept) (len hotwords)); [lia|].
    rewrite Hc. unfold Rw.set_hotwords, kv_set, print, printed, stored,
      mbind, io_mbind, io_bind. simpl.
    rewrite <- !app_assoc. reflexivity.
Qed.

Lemma kept_elem q hotwords hw :
  hw ∈ List.filter (fun hw => negb (matches_key q hw)) hotwords <->
  hw ∈ hotwords /\ strip (trigger_key_of hw) <> q.
Proof.
  rewrite !list_elem_of_In, filter_In. unfold matches_key.
  rewrite negb_true_iff, str_eqb_neq. reflexivity.
Qed.

(** C4. Removal keeps exactly the entries whose stripped trigger key differs
    from the query as typed, reports how many were removed, and answers
    "not found" without failing when none was. *)
Theorem C4_remove_by_stripped_key float_repr q hotwords :
  forallb is_entry hotwords = true ->
  let kept := List.filter (fun hw => negb (matches_key q hw)) hotwords in
  let removed := len (List.filter (matches_key q) hotwords) in
  remove_key hotwords q = Ok kept /\
  (forall hw, hw ∈ kept <-> hw ∈ hotwords /\ strip (trigger_key_of hw) <> q) /\
  len hotwords - len kept = removed /\
  (forall w outcome,
     read_raw_hotwords (settings_text w) = Ok hotwords ->
     (removed = 0 ->
      Raw.delete_hotword float_repr q outcome w
      = (printed w [MsgNotFound q], Ok tt)) /\
     (removed <> 0 ->
      Raw.delete_hotword float_repr q outcome w
      = (fst (restart_wetype outcome
                (printed (stored w hotWordList
                            (dumps float_repr (JList kept)))
                   [MsgDeleted removed])), Ok tt))) /\
  (forall w w1,
     Rw.get_hotwords w = (w1, Ok (JList hotwords)) ->
     (removed = 0 ->
      Rw.delete_hotword float_repr q w = (printed w1 [MsgNotFound q], Ok tt)) /\
     (removed <> 0 ->
      Rw.delete_hotword float_repr q w
      = (printed (stored w1 hotWordList (dumps float_repr (JList kept)))
           [MsgSaved; MsgRestartNotice; MsgDeleted removed], Ok tt))).
Proof.
  intros Hent kept removed. split_and!.
  - apply remove_key_entries, Hent.
  - intros hw. apply kept_elem.
  - apply filter_count.
  - intros w outcome Hread. apply raw_delete_spec; assumption.
  - intros w w1 Hget. apply rw_delete_spec; assumption.
Qed.

Lemma C4_witness :
  forallb is_entry [entry_foo; entry_bar] = true /\
  remove_key [entry_foo; entry_bar] (s2l "foo"%string) = Ok [entry_bar] /\
  Raw.delete_hotword repr_one_half (s2l "foo"%string) (Exited 0)
    (world_of text_two)
  = (fst (restart_wetype (Exited 0)
            (printed (stored (world_of text_two) hotWordList
                        (dumps repr_one_half (JList [entry_bar])))
               [MsgDeleted 1])), Ok tt).
Proof.
  assert (H : forallb is_entry [entry_foo; entry_bar] = true)
    by (vm_compute; reflexivity).
  split; [exact H|].
  pose proof (C4_remove_by_stripped_key repr_one_half (s2l "foo"%string)
                [entry_foo; entry_bar] H) as (H1 & _ & _ & H4 & _).
  split; [exact H1|].
  apply (H4 (world_of text_two) (Exited 0)).
  - vm_compute. reflexivity.
  - vm_compute. discriminate.
Defined.

(** C5. When no entry has the query as its stripped trigger key, removal
    leaves the collection as it is, prints "not found" and touches neither
    the store nor anything else. *)
Theorem C5_remove_absent_key_changes_nothing float_repr q hotwords :
  forallb is_entry hotwords = true ->
  (forall hw, hw ∈ hotwords -> strip (trigger_key_of hw) <> q) ->
  remove_key hotwords q = Ok hotwords /\
  len (List.filter (matches_key q) hotwords) = 0 /\
  (forall w outcome,
     read_raw_hotwords (settings_text w) = Ok hotwords ->
     exists w',
       Raw.delete_hotword float_repr q outcome w = (w', Ok tt) /\
       mmkv w' = mmkv w /\ settings_text w' = settings_text w /\
       files w' = files w /\ signals w' = signals w /\
       stdout w' = stdout w ++ [MsgNotFound q]) /\
  (forall w w1,
     Rw.get_hotwords w = (w1, Ok (JList hotwords)) ->
     exists w',
       Rw.delete_hotword float_repr q w = (w', Ok tt) /\
       mmkv w' = mmkv w1 /\ settings_text w' = settings_text w1 /\
       files w' = files w1 /\ signals w' = signals w1 /\
       stdout w' = stdout w1 ++ [MsgNotFound q]).
Proof.
  intros Hent Hno.
  assert (Hk : List.filter (fun hw => negb (matches_key q hw)) hotwords
               = hotwords).
  { apply forallb_filter_id. apply forallb_forall. intros hw Hin.
    unfold matches_key. apply negb_true_iff, str_eqb_neq, Hno.
    apply list_elem_of_In. exact Hin. }
  assert (H0 : len (List.filter (matches_key q) hotwords) = 0).
  { apply filter_none. exact Hk. }
  split_and!.
  - rewrite remove_key_entries by exact Hent. rewrite Hk. reflexivity.
  - exact H0.
  - intros w outcome Hread.
    destruct (raw_delete_spec float_repr w q outcome hotwords Hread Hent)
      as [H _].
    exists (printed w [MsgNotFound q]). rewrite (H H0). repeat split.
  - intros w w1 Hget.
    destruct (rw_delete_spec float_repr w w1 q hotwords Hget Hent) as [H _].
    exists (printed w1 [MsgNotFound q]). rewrite (H H0). repeat split.
Qed.

Lemma C5_witness :
  forallb is_entry [entry_foo; entry_bar] = true /\
  (forall hw, hw ∈ [entry_foo; entry_bar] ->
     strip (trigger_key_of hw) <> s2l "baz"%string) /\
  remove_key [entry_foo; entry_bar] (s2l "baz"%string)
  = Ok [entry_foo; entry_bar].
Proof.
  assert (H1 : forallb is_entry [entry_foo; entry_bar] = true)
    by (vm_compute; reflexivity).
  assert (H2 : forall hw, hw ∈ [entry_foo; entry_bar] ->
                 strip (trigger_key_of hw) <> s2l "baz"%string).
  { intros hw Hin. apply list_elem_of_In in Hin.
    destruct Hin as [<-|[<-|[]]]; vm_compute; discriminate. }
  split; [exact H1|]. split; [exact H2|].
  exact (proj1 (C5_remove_absent_key_changes_nothing repr_one_half
                  (s2l "baz"%string) _ H1 H2)).
Defined.

(** *** Adding an entry *)


Lemma int_repr_loads float_repr z : loads (dumps float_repr (JInt z)) = Ok (JInt z).
Proof. apply loads_dumps; [reflexivity|]. intros f []. Qed.


Lemma rw_add_spec float_repr k text now_ms w w1 hotwords :
  Rw.get_hotwords w = (w1, Ok (JList hotwords)) ->
  Rw.add_hotword float_repr k text now_ms w
  = (printed (stored w1 hotWordList
                (dumps float_repr
                   (JList (JDict [(hw_id, JStr (int_repr now_ms));
                                  (key, JStr k); (text_field, JStr text)]
                           :: hotwords))))
       [MsgSaved; MsgRestartNotice; MsgAddedPair k (slice text 0 50)], Ok tt).
Proof.
  intros Hget.
  unfold Rw.add_hotword, Rw.set_hotwords, lift, kv_set, print,
    mbind, io_mbind, io_bind.
  rewrite Hget. cbn [Rw.py_insert0].
  set (blob := dumps float_repr _).
  unfold printed, stored. cbn [settings_text mmkv stdout files signals].
  rewrite <- !app_assoc. reflexivity.
Qed.


(** *** Exporting *)





End StoreClaims.

(** * Further properties of the tools *)

Module Extras.

Import JsonFacts Raw RawFacts RoundTrip Examples StoreClaims.

Local Open Scope Z_scope.

(** *** [str.strip] *)

Lemma lstrip_head s :
  match lstrip s with [] => True | c :: _ => is_space c = false end.
Proof.
  induction s as [|c s IH]; simpl; [exact I|].
  destruct (is_space c) eqn:E; [exact IH|exact E].
Qed.

Lemma lstrip_fixed c s : is_space c = false -> lstrip (c :: s) = c :: s.
Proof. intros H. simpl. rewrite H. reflexivity. Qed.

Lemma lstrip_snoc l c :
  is_space c = false -> lstrip (l ++ [c]) = lstrip l ++ [c].
Proof.
  intros H. induction l as [|x l IH]; simpl.
  - rewrite H. reflexivity.
  - destruct (is_space x); [exact IH|reflexivity].
Qed.

Lemma rstrip_cons c s : is_space c = false -> rstrip (c :: s) = c :: rstrip s.
Proof.
  intros H. unfold rstrip. simpl. rewrite lstrip_snoc by exact H.
  rewrite rev_app_distr. reflexivity.
Qed.

Lemma lstrip_idem s : lstrip (lstrip s) = lstrip s.
Proof.
  pose proof (lstrip_head s) as H. destruct (lstrip s) as [|c t]; [reflexivity|].
  apply lstrip_fixed, H.
Qed.

Lemma rstrip_idem s : rstrip (rstrip s) = rstrip s.
Proof. unfold rstrip. rewrite rev_involutive, lstrip_idem. reflexivity. Qed.

Lemma strip_idem s : strip (strip s) = strip s.
Proof.
  unfold strip. pose proof (lstrip_head s) as H.
  destruct (lstrip s) as [|c t].
  - reflexivity.
  - rewrite (rstrip_cons c t H), (lstrip_fixed c _ H).
    rewrite <- (rstrip_cons c t H). apply rstrip_idem.
Qed.

(** X1. A query with leading or trailing whitespace matches no entry: the
    stored keys are stripped before the comparison, the query is not. *)
Theorem unstripped_query_matches_nothing float_repr q hotwords :
  strip q <> q ->
  forallb is_entry hotwords = true ->
  (forall hw, matches_key q hw = false) /\
  remove_key hotwords q = Ok hotwords /\
  (forall w outcome,
     read_raw_hotwords (settings_text w) = Ok hotwords ->
     Raw.delete_hotword float_repr q outcome w
     = (printed w [MsgNotFound q], Ok tt)) /\
  (forall w w1,
     Rw.get_hotwords w = (w1, Ok (JList hotwords)) ->
     Rw.delete_hotword float_repr q w = (printed w1 [MsgNotFound q], Ok tt)).
Proof.
  intros Hq Hent.
  assert (Hm : forall hw, matches_key q hw = false).
  { intros hw. unfold matches_key. apply str_eqb_neq. intros E.
    apply Hq. rewrite <- E. apply strip_idem. }
  assert (Hk : List.filter (fun hw => negb (matches_key q hw)) hotwords
               = hotwords).
  { apply forallb_filter_id. apply forallb_forall. intros hw _.
    rewrite Hm. reflexivity. }
  assert (H0 : len (List.filter (matches_key q) hotwords) = 0).
  { apply filter_none. exact Hk. }
  split_and!.
  - exact Hm.
  - rewrite remove_key_entries by exact Hent. rewrite Hk. reflexivity.
  - intros w outcome Hread.
    apply (proj1 (raw_delete_spec float_repr w q outcome hotwords Hread Hent)).
    exact H0.
  - intros w w1 Hget.
    apply (proj1 (rw_delete_spec float_repr w w1 q hotwords Hget Hent)).
    exact H0.
Qed.

Lemma unstripped_query_witness :
  strip (s2l "foo "%string) <> s2l "foo "%string /\
  forallb is_entry [entry_foo; entry_bar] = true /\
  remove_key [entry_foo; entry_bar] (s2l "foo "%string)
  = Ok [entry_foo; entry_bar].
Proof.
  assert (H1 : strip (s2l "foo "%string) <> s2l "foo "%string)
    by (vm_compute; discriminate).
  assert (H2 : forallb is_entry [entry_foo; entry_bar] = true)
    by (vm_compute; reflexivity).
  split; [exact H1|]. split; [exact H2|].
  exact (proj1 (proj2 (unstripped_query_matches_nothing repr_one_half _ _
                         H1 H2))).
Defined.

(** *** Removal on a collection with a malformed element *)

Lemma stripped_key_not_entry hw :
  is_entry hw = false -> stripped_key hw = Raise AttributeError.
Proof.
  unfold is_entry, stripped_key.
  destruct hw as [| | | | | |d]; try reflexivity. simpl.
  destruct (dict_get d key) as [[| | | |s| |]|]; try discriminate; reflexivity.
Qed.

Lemma remove_key_not_entries hotwords q :
  forallb is_entry hotwords = false ->
  remove_key hotwords q = Raise AttributeError.
Proof.
  induction hotwords as [|hw l IH]; [discriminate|].
  cbn [forallb remove_key]. intros H.
  destruct (is_entry hw) eqn:E.
  - rewrite (stripped_key_entry _ E). simpl in H. rewrite IH by exact H.
    reflexivity.
  - rewrite (stripped_key_not_entry _ E). reflexivity.
Qed.

(** X2. When some element is not a dict, or has a trigger key that is not a
    string, removal raises [AttributeError] in both tools before anything is
    written or printed. *)
Theorem remove_raises_on_malformed_element float_repr q hotwords :
  forallb is_entry hotwords = false ->
  remove_key hotwords q = Raise AttributeError /\
  (forall w outcome,
     read_raw_hotwords (settings_text w) = Ok hotwords ->
     Raw.delete_hotword float_repr q outcome w = (w, Raise AttributeError)) /\
  (forall w w1,
     Rw.get_hotwords w = (w1, Ok (JList hotwords)) ->
     Rw.delete_hotword float_repr q w = (w1, Raise AttributeError)).
Proof.
  intros H. pose proof (remove_key_not_entries hotwords q H) as Hr.
  split_and!.
  - exact Hr.
  - intros w outcome Hread.
    unfold Raw.delete_hotword, read_settings, lift, mbind, io_mbind, io_bind.
    rewrite Hread, Hr. reflexivity.
  - intros w w1 Hget.
    unfold Rw.delete_hotword, lift, mbind, io_mbind, io_bind.
    rewrite Hget. cbn [py_len py_iter]. rewrite Hr. reflexivity.
Qed.

Lemma remove_raises_witness :
  forallb is_entry [entry_bar; JDict [(key, JNull)]] = false /\
  remove_key [entry_bar; JDict [(key, JNull)]] (s2l "bar"%string)
  = Raise AttributeError.
Proof.
  assert (H : forallb is_entry [entry_bar; JDict [(key, JNull)]] = false)
    by (vm_compute; reflexivity).
  split; [exact H|].
  exact (proj1 (remove_raises_on_malformed_element repr_one_half
                  (s2l "bar"%string) _ H)).
Defined.

(** *** The store of [wetype_rw.py] *)

Lemma dumps_nonempty float_repr v :
  wf v = true ->
  (forall f, In f (floats_of v) -> reads_back float_repr f) ->
  dumps float_repr v <> [].
Proof.
  intros Hwf Hfl. destruct (dumps_reads_back float_repr v Hwf Hfl [] I) as [d Hd].
  rewrite app_nil_r in Hd. eapply scan_once_nonempty, Hd.
Qed.

Lemma get_after_store float_repr v w ms :
  wf v = true ->
  (forall f, In f (floats_of v) -> reads_back float_repr f) ->
  Rw.get_hotwords
    (printed (stored w hotWordList (dumps float_repr v)) ms)
  = (printed (stored w hotWordList (dumps float_repr v)) ms, Ok v).
Proof.
  intros Hwf Hfl.
  unfold Rw.get_hotwords, kv_getString, mbind, io_mbind, io_bind.
  cbn [printed stored mmkv]. rewrite lookup_insert_eq. cbn [default].
  pose proof (dumps_nonempty float_repr v Hwf Hfl) as Hne.
  rewrite (bool_decide_eq_false_2 _ Hne). cbn [negb].
  change (id (dumps float_repr v)) with (dumps float_repr v).
  rewrite (loads_dumps float_repr v Hwf Hfl). reflexivity.
Qed.

(** X3. What [set_hotwords] stores is what [get_hotwords] returns next. *)
Theorem get_hotwords_after_set_hotwords float_repr v w :
  wf v = true ->
  (forall f, In f (floats_of v) -> reads_back float_repr f) ->
  exists w1,
    Rw.set_hotwords float_repr v w = (w1, Ok tt) /\
    Rw.get_hotwords w1 = (w1, Ok v).
Proof.
  intros Hwf Hfl.
  exists (printed (stored w hotWordList (dumps float_repr v))
            [MsgSaved; MsgRestartNotice]).
  split.
  - unfold Rw.set_hotwords, kv_set, print, mbind, io_mbind, io_bind,
      printed, stored.
    cbn [settings_text mmkv stdout files signals].
    rewrite <- app_assoc. reflexivity.
  - apply get_after_store; assumption.
Qed.

Lemma get_hotwords_witness :
  wf (JList [entry_foo; entry_bar]) = true /\
  (forall f, In f (floats_of (JList [entry_foo; entry_bar])) ->
     reads_back repr_one_half f) /\
  exists w1,
    Rw.set_hotwords repr_one_half (JList [entry_foo; entry_bar]) (world_of [])
    = (w1, Ok tt) /\
    Rw.get_hotwords w1 = (w1, Ok (JList [entry_foo; entry_bar])).
Proof.
  assert (H1 : wf (JList [entry_foo; entry_bar]) = true)
    by (vm_compute; reflexivity).
  assert (H2 : forall f, In f (floats_of (JList [entry_foo; entry_bar])) ->
                 reads_back repr_one_half f) by (intros f []).
  split; [exact H1|]. split; [exact H2|].
  exact (get_hotwords_after_set_hotwords repr_one_half _ (world_of []) H1 H2).
Defined.

(** The three ways [get_hotwords] ends. *)
Lemma get_hotwords_cases w :
  exists w1 v,
    Rw.get_hotwords w = (w1, Ok v) /\
    mmkv w1 = mmkv w /\ files w1 = files w /\
    (default [] (mmkv w !! hotWordList) = [] -> v = JList [] /\ w1 = w) /\
    (loads (default [] (mmkv w !! hotWordList)) = Raise JSONDecodeError ->
     v = JList [] /\
     (default [] (mmkv w !! hotWordList) <> [] ->
      w1 = printed w [MsgParseFailed])) /\
    (forall v', default [] (mmkv w !! hotWordList) <> [] ->
       loads (default [] (mmkv w !! hotWordList)) = Ok v' ->
       v = v' /\ w1 = w).
Proof.
  unfold Rw.get_hotwords, kv_getString, mbind, io_mbind, io_bind.
  set (blob := default [] (mmkv w !! hotWordList)).
  destruct (bool_decide_reflect (blob = [])) as [E|E]; cbn [negb].
  - exists w, (JList []). split_and!; try reflexivity.
    + intros _. auto.
    + intros _. split; [reflexivity|]. intros H. contradiction.
    + intros v' H. contradiction.
  - destruct (loads_cases blob) as [[v Hv]|Hv]; rewrite Hv.
    + exists w, v. split_and!; try reflexivity.
      * intros H. contradiction.
      * intros H. discriminate.
      * intros v' _ H. inversion H. auto.
    + exists (printed w [MsgParseFailed]), (JList []).
      split_and!; try reflexivity.
      * intros H. contradiction.
      * intros _. auto.
      * intros v' _ H. discriminate.
Qed.



(** X5. When the stored value is not a list, [add_hotword] of
    [wetype_rw.py] raises [AttributeError] and stores nothing. *)
Theorem rw_add_needs_a_list float_repr k text now_ms w w1 v :
  Rw.get_hotwords w = (w1, Ok v) ->
  (forall l, v <> JList l) ->
  Rw.add_hotword float_repr k text now_ms w = (w1, Raise AttributeError) /\
  mmkv w1 = mmkv w.
Proof.
  intros Hget Hv. split.
  - unfold Rw.add_hotword, lift, mbind, io_mbind, io_bind. rewrite Hget.
    destruct v; try reflexivity. exfalso. eapply Hv. reflexivity.
  - destruct (get_hotwords_cases w) as (w1' & v' & H & Hm & _).
    rewrite Hget in H. inversion H; subst. exact Hm.
Qed.

Lemma rw_add_needs_a_list_witness :
  Rw.get_hotwords (world_with (s2l "{}"%string))
  = (world_with (s2l "{}"%string), Ok (JDict [])) /\
  (forall l, JDict [] <> JList l) /\
  Rw.add_hotword repr_one_half (s2l "k"%string) (s2l "t"%string) 5
    (world_with (s2l "{}"%string))
  = (world_with (s2l "{}"%string), Raise AttributeError).
Proof.
  assert (H1 : Rw.get_hotwords (world_with (s2l "{}"%string))
               = (world_with (s2l "{}"%string), Ok (JDict [])))
    by (vm_compute; reflexivity).
  assert (H2 : forall l, JDict [] <> JList l) by discriminate.
  split; [exact H1|]. split; [exact H2|].
  exact (proj1 (rw_add_needs_a_list repr_one_half _ _ 5 _ _ _ H1 H2)).
Defined.

Lemma get_hotwords_wf w w1 v : Rw.get_hotwords w = (w1, Ok v) -> wf v = true.
Proof.
  intros Hget.
  destruct (get_hotwords_cases w) as (w1' & v' & H & _ & _ & He & Hf & Hok).
  rewrite Hget in H. inversion H; subst w1' v'. clear H.
  set (blob := default [] (mmkv w !! hotWordList)) in *.
  destruct (decide (blob = [])) as [E|E].
  - destruct (He E) as [-> _]. reflexivity.
  - destruct (loads_cases blob) as [[v' Hv]|Hv].
    + destruct (Hok v' E Hv) as [-> _]. eapply loads_wf, Hv.
    + destruct (Hf Hv) as [-> _]. reflexivity.
Qed.

Lemma floats_of_filter p l f :
  In f (floats_of (JList (List.filter p l))) -> In f (floats_of (JList l)).
Proof.
  cbn [floats_of]. rewrite !in_flat_map. intros (x & Hx & Hf).
  apply filter_In in Hx as [Hx _]. eauto.
Qed.

Lemma wf_filter p l :
  wf (JList l) = true -> wf (JList (List.filter p l)) = true.
Proof.
  cbn [wf]. rewrite !forallb_forall. intros H x Hx.
  apply filter_In in Hx as [Hx _]. auto.
Qed.

(** X6. In [wetype_rw.py] a mutation is read back by the next command:
    after [add_hotword] the stored list is the new entry followed by the
    former list, and after a [delete_hotword] that removed something it is
    the list of the entries kept. *)
Theorem rw_mutation_is_read_back float_repr w w1 hotwords :
  Rw.get_hotwords w = (w1, Ok (JList hotwords)) ->
  (forall f, In f (floats_of (JList hotwords)) -> reads_back float_repr f) ->
  (forall k text now_ms, exists w2,
     Rw.add_hotword float_repr k text now_ms w = (w2, Ok tt) /\
     Rw.get_hotwords w2
     = (w2, Ok (JList (new_entry now_ms k text :: hotwords)))) /\
  (forall q,
     forallb is_entry hotwords = true ->
     len (List.filter (matches_key q) hotwords) <> 0 ->
     exists w2,
       Rw.delete_hotword float_repr q w = (w2, Ok tt) /\
       Rw.get_hotwords w2
       = (w2, Ok (JList (List.filter (fun hw => negb (matches_key q hw))
                           hotwords)))).
Proof.
  intros Hget Hfl. pose proof (get_hotwords_wf _ _ _ Hget) as Hwf. split.
  - intros k text now_ms. eexists. split.
    + apply rw_add_spec, Hget.
    + apply get_after_store.
      * cbn [wf forallb] in *. cbn [snd map]. rewrite Hwf.
        reflexivity.
      * intros f Hf. apply Hfl. cbn [floats_of flat_map] in Hf.
        cbn [floats_of]. simpl in Hf. exact Hf.
  - intros q Hent Hrem. eexists. split.
    + apply (proj2 (rw_delete_spec float_repr w w1 q hotwords Hget Hent)).
      exact Hrem.
    + apply get_after_store.
      * apply wf_filter, Hwf.
      * intros f Hf. apply Hfl. eapply floats_of_filter, Hf.
Qed.

Lemma rw_mutation_witness :
  Rw.get_hotwords (world_with (jlit "[{'key':'bar','text':'y'}]"%string))
  = (world_with (jlit "[{'key':'bar','text':'y'}]"%string),
     Ok (JList [entry_bar])) /\
  (forall f, In f (floats_of (JList [entry_bar])) ->
     reads_back repr_one_half f) /\
  exists w2,
    Rw.add_hotword repr_one_half (s2l "k"%string) (s2l "t"%string) 5
      (world_with (jlit "[{'key':'bar','text':'y'}]"%string)) = (w2, Ok tt) /\
    Rw.get_hotwords w2
    = (w2, Ok (JList [new_entry 5 (s2l "k"%string) (s2l "t"%string);
                      entry_bar])).
Proof.
  assert (H1 : Rw.get_hotwords
                 (world_with (jlit "[{'key':'bar','text':'y'}]"%string))
               = (world_with (jlit "[{'key':'bar','text':'y'}]"%string),
                  Ok (JList [entry_bar]))) by (vm_compute; reflexivity).
  assert (H2 : forall f, In f (floats_of (JList [entry_bar])) ->
                 reads_back repr_one_half f) by (intros f []).
  split; [exact H1|]. split; [exact H2|].
  exact (proj1 (rw_mutation_is_read_back repr_one_half _ _ _ H1 H2)
           (s2l "k"%string) (s2l "t"%string) 5).
Defined.

(** *** Identifiers *)

(** X7. Two entries get the same id exactly when they are added at the same
    millisecond: the decimal numeral determines the clock reading. *)
Theorem new_id_determines_clock a b : int_repr a = int_repr b <-> a = b.
Proof.
  split; [|intros ->; reflexivity]. intros H.
  pose proof (int_repr_loads (fun _ => []) a) as Ha.
  pose proof (int_repr_loads (fun _ => []) b) as Hb.
  cbn [dumps] in Ha, Hb. rewrite H in Ha. rewrite Ha in Hb.
  inversion Hb. reflexivity.
Qed.

(** *** [restart_wetype] *)

(** X8. [restart_wetype] never raises, makes the [killall] call once, touches
    neither the store nor the files, and answers [False] only when the call
    fails for another reason than a timeout. *)
Theorem restart_wetype_is_best_effort outcome w :
  exists w1 b,
    restart_wetype outcome w = (w1, Ok b) /\
    signals w1 = S (signals w) /\ mmkv w1 = mmkv w /\ files w1 = files w /\
    settings_text w1 = settings_text w /\
    (b = false <-> outcome = Failed).
Proof.
  unfold restart_wetype, send_killall, print, mbind, io_mbind, io_bind,
    mret, io_mret, io_ret.
  destruct outcome as [rc| |]; [destruct (rc =? 0)|..];
    eexists _, _; (split; [reflexivity|]); cbn; repeat split;
    intros; congruence.
Qed.

(** *** Exports without data *)

(** X9. With nothing recovered, [export_hotwords] of [wetype_raw.py] prints
    that no data was found and writes no file, while [wetype_rw.py] writes a
    file with count zero. *)
Theorem export_without_data now path :
  (forall w,
     read_raw_hotwords (settings_text w) = Ok [] ->
     Raw.export_hotwords path now w = (printed w [MsgNoData], Ok tt)) /\
  (forall w w1,
     Rw.get_hotwords w = (w1, Ok (JList [])) ->
     Rw.export_hotwords path now w
     = (printed (wrote w1 path
                   (JDict [(s2l "exported_at"%string, JStr now);
                           (s2l "count"%string, JInt 0);
                           (s2l "hotwords"%string, JList [])]))
          [MsgExported 0 path], Ok tt)).
Proof.
  split.
  - intros w Hread.
    unfold Raw.export_hotwords, read_settings, lift, mbind, io_mbind, io_bind.
    rewrite Hread. reflexivity.
  - intros w w1 Hget.
    unfold Rw.export_hotwords, lift, write_json, print,
      mbind, io_mbind, io_bind.
    rewrite Hget. reflexivity.
Qed.

Lemma export_without_data_witness :
  read_raw_hotwords (settings_text (world_of [])) = Ok [] /\
  Raw.export_hotwords (s2l "out.json"%string) (s2l "now"%string) (world_of [])
  = (printed (world_of []) [MsgNoData], Ok tt) /\
  Rw.get_hotwords (world_of []) = (world_of [], Ok (JList [])) /\
  files (fst (Rw.export_hotwords (s2l "out.json"%string) (s2l "now"%string)
                (world_of [])))
  = [(s2l "out.json"%string,
      JDict [(s2l "exported_at"%string, JStr (s2l "now"%string));
             (s2l "count"%string, JInt 0);
             (s2l "hotwords"%string, JList [])])].
Proof.
  assert (H1 : read_raw_hotwords (settings_text (world_of [])) = Ok [])
    by reflexivity.
  assert (H2 : Rw.get_hotwords (world_of []) = (world_of [], Ok (JList [])))
    by reflexivity.
  destruct (export_without_data (s2l "now"%string) (s2l "out.json"%string))
    as [Hraw Hrw].
  split; [exact H1|]. split; [exact (Hraw _ H1)|]. split; [exact H2|].
  rewrite (Hrw _ _ H2). reflexivity.
Defined.



(** *** The decoded span *)

Lemma array_items_list d : forall s vs v r,
  array_items d s vs = POk (v, r) -> exists l, v = JList l.
Proof.
  induction d as [|d IH]; intros s vs v r H; [discriminate|].
  cbn [array_items] in H. apply pbind_ok in H as ([v1 r1] & _ & H).
  cbn [fst snd] in H.
  destruct (skip_ws r1) as [|c r2]; [discriminate|].
  destruct (N.eqb c RBRACKET); [inversion H; eauto|].
  destruct (N.eqb c COMMA); [|discriminate]. eapply IH, H.
Qed.

Lemma scan_once_bracket d r v r' :
  scan_once d (LBRACKET :: r) = POk (v, r') -> exists l, v = JList l.
Proof.
  destruct d as [|d]; [discriminate|]. cbn [scan_once].
  change (N.eqb LBRACKET QUOTE) with false.
  change (N.eqb LBRACKET LBRACE) with false.
  change (N.eqb LBRACKET LBRACKET) with true. cbv iota.
  destruct (skip_ws r) as [|c' r'']; [discriminate|].
  destruct (N.eqb c' RBRACKET); [intros H; inversion H; eauto|].
  apply array_items_list.
Qed.

(** X11. A span handed to the decoder opens with a bracket, so whatever it
    decodes to is a list: the test [isinstance(hotwords, list)] never
    rejects a decoded span. *)
Theorem decoded_span_is_a_list text pos js v :
  candidate_span text pos = Some js -> loads js = Ok v ->
  exists l, v = JList l.
Proof.
  intros Hs Hl.
  destruct (candidate_span_cases text pos)
    as [(H & _)|(js' & pre & post & Hs' & _ & _ & Hh & _)]; [congruence|].
  rewrite Hs in Hs'. inversion Hs'; subst js'. clear Hs'.
  destruct js as [|c r]; [discriminate|]. simpl in Hh. inversion Hh; subst c.
  unfold loads in Hl. destruct (startswith _ _); [discriminate|].
  destruct (decode _ _) as [v'| |] eqn:E; try discriminate.
  inversion Hl; subst v'. unfold decode in E.
  change (skip_ws (LBRACKET :: r)) with (LBRACKET :: r) in E.
  apply pbind_ok in E as ([v1 r1] & Hscan & E). cbn [fst snd] in E.
  destruct (skip_ws r1); inversion E; subst.
  eapply scan_once_bracket, Hscan.
Qed.

Lemma decoded_span_witness :
  candidate_span text_mixed 0 = Some (jlit "[{'key':'a'},1]"%string) /\
  loads (jlit "[{'key':'a'},1]"%string)
  = Ok (JList [JDict [(key, JStr (s2l "a"%string))]; JInt 1]) /\
  exists l, JList [JDict [(key, JStr (s2l "a"%string))]; JInt 1] = JList l.
Proof.
  assert (H1 : candidate_span text_mixed 0
               = Some (jlit "[{'key':'a'},1]"%string))
    by (vm_compute; reflexivity).
  assert (H2 : loads (jlit "[{'key':'a'},1]"%string)
               = Ok (JList [JDict [(key, JStr (s2l "a"%string))]; JInt 1]))
    by (vm_compute; reflexivity).
  split; [exact H1|]. split; [exact H2|].
  exact (decoded_span_is_a_list text_mixed 0 _ _ H1 H2).
Defined.

(** *** The occurrences of the key *)

Lemma strip_prefix_app p s r : strip_prefix p s = Some r <-> s = p ++ r.
Proof.
  revert s; induction p as [|a p IH]; intros s; simpl.
  - split; [intros H; inversion H; reflexivity|intros ->; reflexivity].
  - destruct s as [|b s]; [split; discriminate|].
    destruct (N.eqb_spec a b) as [->|Hne].
    + rewrite IH. split; [intros ->; reflexivity|intros H; inversion H; auto].
    + split; [discriminate|intros H; inversion H; congruence].
Qed.

Lemma key_does_not_overlap s j :
  startswith s hotWordList = true -> (0 < j < 11)%nat ->
  startswith (drop j s) hotWordList = false.
Proof.
  unfold startswith. destruct (strip_prefix hotWordList s) as [r|] eqn:E;
    [|discriminate].
  apply strip_prefix_app in E. subst s. intros _ Hj.
  do 11 (destruct j as [|j]; [try lia; reflexivity|]). lia.
Qed.

Lemma finditer_from_spec text : forall pos skip,
  (forall j, (j < skip)%nat -> startswith (drop j text) hotWordList = false) ->
  forall p,
    p ∈ finditer_from hotWordList text pos skip <->
    exists j : nat, p = pos + Z.of_nat j /\
      startswith (drop j text) hotWordList = true.
Proof.
  induction text as [|c t IH]; intros pos skip Hskip p.
  - simpl. split; [intros H; apply elem_of_nil in H; contradiction|].
    intros (j & _ & H). rewrite drop_nil in H. discriminate.
  - assert (Hshift : forall k,
      (forall j, (j < k)%nat -> startswith (drop j t) hotWordList = false) ->
      startswith (c :: t) hotWordList = false ->
      (p ∈ finditer_from hotWordList t (pos + 1) k <->
       exists j : nat, p = pos + Z.of_nat j /\
         startswith (drop j (c :: t)) hotWordList = true)).
    { intros k Hk H0. rewrite (IH (pos + 1) k Hk). split.
      - intros (j & -> & Hj). exists (S j). split; [lia|exact Hj].
      - intros ([|j] & -> & Hj); [simpl in Hj; congruence|].
        exists j. split; [lia|exact Hj]. }
    cbn [finditer_from]. destruct skip as [|k].
    + destruct (startswith (c :: t) hotWordList) eqn:E.
      * rewrite elem_of_cons.
        rewrite (IH (pos + 1) (length hotWordList - 1)%nat).
        -- split.
           ++ intros [->|(j & -> & Hj)].
              ** exists 0%nat. split; [lia|exact E].
              ** exists (S j). split; [lia|exact Hj].
           ++ intros ([|j] & -> & Hj); [left; lia|].
              right. exists j. split; [lia|exact Hj].
        -- intros j Hj. change (drop j t) with (drop (S j) (c :: t)).
           apply key_does_not_overlap; [exact E|].
           change (length hotWordList) with 11%nat in Hj. lia.
      * apply Hshift; [intros j Hj; lia|reflexivity].
    + apply Hshift.
      * intros j Hj. change (drop j t) with (drop (S j) (c :: t)).
        apply Hskip. lia.
      * apply (Hskip 0%nat). lia.
Qed.

(** X12. The loop visits exactly the offsets at which the text continues
    with [hotWordList]. *)
Theorem finditer_visits_every_occurrence text p :
  p ∈ finditer hotWordList text <->
  0 <= p /\ startswith (drop (Z.to_nat p) text) hotWordList = true.
Proof.
  unfold finditer. rewrite finditer_from_spec by (intros j Hj; lia). split.
  - intros (j & -> & Hj). split; [lia|].
    replace (Z.to_nat (0 + Z.of_nat j)) with j by lia. exact Hj.
  - intros [Hp H]. exists (Z.to_nat p). split; [lia|exact H].
Qed.

End Extras.

(** * The import and display commands *)

Module ToolFacts.

Import JsonFacts Raw RawFacts RoundTrip Examples StoreClaims Extras Tool.

Local Open Scope Z_scope.

(** *** [parse_hotwords] *)

Lemma strip_nil : strip [] = [].
Proof. reflexivity. Qed.

Lemma truthy_JStr s : truthy (JStr s) = match s with [] => false | _ => true end.
Proof. destruct s; reflexivity. Qed.

Lemma text_preview_str t : text_preview (JStr t) = Ok (JStr (preview_of t)).
Proof.
  unfold text_preview, preview_of. cbn [py_len mbind res_mbind res_bind].
  destruct (100 <? len t); reflexivity.
Qed.

Lemma parse_item_display item :
  is_display_entry item = true -> parse_item item = Ok (record_of item).
Proof.
  unfold is_display_entry, is_entry, parse_item, record_of, text_of,
    trigger_key_of.
  destruct item as [| | | | | |d]; try discriminate. cbn [py_get].
  destruct (dict_get d key) as [[| | | |k| |]|]; try discriminate;
    destruct (dict_get d text_field) as [[| | | |t| |]|]; try discriminate;
    intros _; cbn [from_option id mbind res_mbind res_bind];
    rewrite ?truthy_JStr, ?text_preview_str;
    try (destruct k as [|c k]);
    cbn [mbind res_mbind res_bind py_strip]; rewrite ?text_preview_str;
    reflexivity.
Qed.

Lemma parse_items_display l :
  forallb is_display_entry l = true ->
  parse_items l = Ok (map record_of l).
Proof.
  induction l as [|x l IH]; [reflexivity|]. cbn [forallb]. intros H.
  apply andb_true_iff in H as [Hx Hl].
  cbn [parse_items]. rewrite (parse_item_display _ Hx), (IH Hl). reflexivity.
Qed.

Lemma preview_of_length t : len (preview_of t) <= 103.
Proof.
  unfold preview_of. destruct (Z.ltb_spec 100 (len t)); [|lia].
  unfold len, slice in *. rewrite length_app, length_take.
  change (length (s2l "..."%string)) with 3%nat. lia.
Qed.

(** X13. On items whose trigger key and body text are strings (or absent),
    [parse_hotwords] does not fail and keeps the count and the order; the
    key of each record is the stripped trigger key, the text is unchanged,
    and the preview is the text itself up to 100 characters and its first
    100 characters followed by three dots beyond. *)
Theorem parse_hotwords_displays_every_entry raw_data :
  forallb is_display_entry raw_data = true ->
  exists parsed,
    parse_hotwords (Some raw_data) = Ok parsed /\
    len parsed = len raw_data /\
    forall i item, raw_data !! i = Some item ->
      exists rec p,
        parsed !! i = Some (JDict rec) /\
        dict_get rec key = Some (JStr (strip (trigger_key_of item))) /\
        dict_get rec text_field = Some (JStr (text_of item)) /\
        dict_get rec (s2l "text_preview"%string) = Some (JStr p) /\
        len p <= 103 /\
        (len (text_of item) <= 100 -> p = text_of item) /\
        (100 < len (text_of item) ->
         p = take 100 (text_of item) ++ s2l "..."%string).
Proof.
  intros H. exists (map record_of raw_data). split_and!.
  - unfold parse_hotwords. destruct raw_data; [reflexivity|].
    apply parse_items_display, H.
  - unfold len. rewrite length_map. reflexivity.
  - intros i item Hi. eexists _, (preview_of (text_of item)). split_and!.
    + rewrite list_lookup_fmap, Hi. reflexivity.
    + reflexivity.
    + reflexivity.
    + reflexivity.
    + apply preview_of_length.
    + intros Hle. unfold preview_of.
      destruct (Z.ltb_spec 100 (len (text_of item))); [lia|reflexivity].
    + intros Hlt. unfold preview_of.
      destruct (Z.ltb_spec 100 (len (text_of item))); [|lia]. reflexivity.
Qed.

Lemma parse_hotwords_witness :
  forallb is_display_entry [entry_foo; entry_bar] = true /\
  exists parsed,
    parse_hotwords (Some [entry_foo; entry_bar]) = Ok parsed /\
    len parsed = len [entry_foo; entry_bar].
Proof.
  assert (H : forallb is_display_entry [entry_foo; entry_bar] = true)
    by (vm_compute; reflexivity).
  split; [exact H|].
  destruct (parse_hotwords_displays_every_entry _ H) as (parsed & Hp & Hl & _).
  exists parsed. split; [exact Hp|exact Hl].
Defined.

(** *** [import_hotwords] *)

Lemma import_dict_with_hotwords float_repr d v w :
  dict_get d (s2l "hotwords"%string) = Some v ->
  Rw.import_hotwords float_repr (JDict d) w
  = match py_len v with
    | Ok n =>
        (printed (stored w hotWordList (dumps float_repr v))
           [MsgSaved; MsgRestartNotice; MsgImported n], Ok tt)
    | Raise e =>
        (printed (stored w hotWordList (dumps float_repr v))
           [MsgSaved; MsgRestartNotice], Raise e)
    end.
Proof.
  intros Hd.
  unfold Rw.import_hotwords, Rw.set_hotwords, lift, kv_set, print,
    mbind, io_mbind, io_bind, mret, io_mret, io_ret.
  cbn [py_contains py_getitem]. unfold dict_mem. rewrite Hd.
  set (blob := dumps float_repr v).
  unfold printed, stored. cbn [settings_text mmkv stdout files signals].
  destruct (py_len v); rewrite <- !app_assoc; reflexivity.
Qed.




(** X15. [import_hotwords] stores what it finds before looking at it: a list
    is stored as it is, a dict without the field [hotwords] is refused with
    a message, a list that has the string [hotwords] among its elements
    raises [TypeError] with the store untouched, and a [hotwords] field that
    has no length is stored before [TypeError] is raised. *)
Theorem import_validates_nothing float_repr w :
  (forall l,
     existsb (fun e => match e with
                       | JStr s => str_eqb s (s2l "hotwords"%string)
                       | _ => false
                       end) l = false ->
     Rw.import_hotwords float_repr (JList l) w
     = (printed (stored w hotWordList (dumps float_repr (JList l)))
          [MsgSaved; MsgRestartNotice; MsgImported (len l)], Ok tt)) /\
  (forall d,
     dict_get d (s2l "hotwords"%string) = None ->
     Rw.import_hotwords float_repr (JDict d) w
     = (printed w [MsgBadFormat], Ok tt)) /\
  (forall l,
     In (JStr (s2l "hotwords"%string)) l ->
     Rw.import_hotwords float_repr (JList l) w = (w, Raise TypeError)) /\
  (forall d z,
     dict_get d (s2l "hotwords"%string) = Some (JInt z) ->
     Rw.import_hotwords float_repr (JDict d) w
     = (printed (stored w hotWordList (int_repr z))
          [MsgSaved; MsgRestartNotice], Raise TypeError)).
Proof.
  split_and!.
  - intros l Hl.
    unfold Rw.import_hotwords, Rw.set_hotwords, lift, kv_set, print,
      mbind, io_mbind, io_bind, mret, io_mret, io_ret.
    cbn [py_contains]. rewrite Hl. cbn [py_len].
    set (blob := dumps float_repr _).
    unfold printed, stored. cbn [settings_text mmkv stdout files signals].
    rewrite <- !app_assoc. reflexivity.
  - intros d Hd.
    unfold Rw.import_hotwords, lift, print,
      mbind, io_mbind, io_bind, mret, io_mret, io_ret.
    cbn [py_contains]. unfold dict_mem. rewrite Hd. reflexivity.
  - intros l Hin.
    assert (Hl : existsb (fun e => match e with
                       | JStr s => str_eqb s (s2l "hotwords"%string)
                       | _ => false
                       end) l = true).
    { apply existsb_exists. eexists. split; [exact Hin|].
      apply str_eqb_eq. reflexivity. }
    unfold Rw.import_hotwords, lift, mbind, io_mbind, io_bind, mret, io_mret,
      io_ret.
    cbn [py_contains]. rewrite Hl. reflexivity.
  - intros d z Hd.
    rewrite (import_dict_with_hotwords float_repr _ _ _ Hd). reflexivity.
Qed.

Lemma import_validates_nothing_witness :
  In (JStr (s2l "hotwords"%string)) [JStr (s2l "hotwords"%string)] /\
  Rw.import_hotwords repr_one_half (JList [JStr (s2l "hotwords"%string)])
    (world_of [])
  = (world_of [], Raise TypeError) /\
  dict_get [(s2l "hotwords"%string, JInt 5)] (s2l "hotwords"%string)
  = Some (JInt 5) /\
  Rw.import_hotwords repr_one_half (JDict [(s2l "hotwords"%string, JInt 5)])
    (world_of [])
  = (printed (stored (world_of []) hotWordList (s2l "5"%string))
       [MsgSaved; MsgRestartNotice], Raise TypeError) /\
  dict_get [(s2l "words"%string, JList [])] (s2l "hotwords"%string) = None /\
  Rw.import_hotwords repr_one_half (JDict [(s2l "words"%string, JList [])])
    (world_of [])
  = (printed (world_of []) [MsgBadFormat], Ok tt) /\
  Rw.import_hotwords repr_one_half (JList [entry_bar]) (world_of [])
  = (printed (stored (world_of []) hotWordList
                (dumps repr_one_half (JList [entry_bar])))
       [MsgSaved; MsgRestartNotice; MsgImported 1], Ok tt).
Proof.
  destruct (import_validates_nothing repr_one_half (world_of []))
    as (Hlist & Hbad & Hin & Hint).
  assert (H1 : In (JStr (s2l "hotwords"%string))
                 [JStr (s2l "hotwords"%string)]) by (left; reflexivity).
  assert (H2 : dict_get [(s2l "hotwords"%string, JInt 5)]
                 (s2l "hotwords"%string) = Some (JInt 5)) by reflexivity.
  assert (H3 : dict_get [(s2l "words"%string, JList [])]
                 (s2l "hotwords"%string) = None) by reflexivity.
  split; [exact H1|]. split; [exact (Hin _ H1)|].
  split; [exact H2|]. split; [exact (Hint _ _ H2)|].
  split; [exact H3|]. split; [exact (Hbad _ H3)|].
  exact (Hlist [entry_bar] eq_refl).
Defined.

End ToolFacts.

(** * The reader of [wetype_tool.py] *)

Module ReadFacts.

Import JsonFacts Raw RawFacts RoundTrip Examples Extras Tool.

Local Open Scope Z_scope.

(** *** The text written by the encoder holds no line break *)

Lemma one_line_app a b : one_line a -> one_line b -> one_line (a ++ b).
Proof. apply Forall_app_2. Qed.

Lemma one_line_cons c s : c <> newline -> one_line s -> one_line (c :: s).
Proof. intros; constructor; assumption. Qed.

Lemma is_digit_one_line ds :
  Forall (fun c => is_digit c = true) ds -> one_line ds.
Proof.
  intros H. eapply Forall_impl; [exact H|]. intros c Hc ->. discriminate.
Qed.

Lemma span_digits_split s ds r :
  span_digits s = (ds, r) ->
  s = ds ++ r /\ Forall (fun c => is_digit c = true) ds.
Proof.
  revert ds r; induction s as [|c s IH]; simpl; intros ds r H.
  - inversion H; subst. split; [reflexivity|constructor].
  - destruct (is_digit c) eqn:Ec.
    + destruct (span_digits s) as [ds' r'] eqn:E. inversion H; subst.
      destruct (IH _ _ eq_refl) as [-> Hd]. split; [reflexivity|].
      constructor; assumption.
    + inversion H; subst. split; [reflexivity|constructor].
Qed.

Lemma span_digits_one_line s ds r :
  span_digits s = (ds, r) -> s = ds ++ r /\ one_line ds.
Proof.
  intros H. apply span_digits_split in H as [-> H].
  split; [reflexivity|apply is_digit_one_line, H].
Qed.

Lemma match_integer_one_line s ip r :
  match_integer s = Some (ip, r) -> s = ip ++ r /\ one_line ip.
Proof.
  destruct s as [|c s]; [discriminate|]. cbn [match_integer].
  destruct (N.eqb_spec c ZERO) as [->|Hz].
  - intros H; inversion H; subst. split; [reflexivity|].
    apply one_line_cons; [discriminate|constructor].
  - destruct (is_digit c) eqn:Ec; [|discriminate].
    destruct (span_digits s) as [ds r'] eqn:E. intros H; inversion H; subst.
    apply span_digits_one_line in E as [-> Hd]. split; [reflexivity|].
    apply one_line_cons; [intros ->; discriminate|exact Hd].
Qed.

Lemma match_frac_one_line s fd r :
  match_frac s = (fd, r) -> exists p, s = p ++ r /\ one_line p.
Proof.
  assert (H0 : forall fd r : str, (fd, r) = ([], s) ->
                 exists p, s = p ++ r /\ one_line p).
  { intros ? ? H; inversion H; subst. exists []. split; [reflexivity|constructor]. }
  destruct s as [|c s]; cbn [match_frac]; [intros H; symmetry in H; eauto|].
  destruct (N.eqb_spec c DOT) as [->|Hd]; [|intros H; symmetry in H; eauto].
  destruct (span_digits s) as [ds r'] eqn:E.
  apply span_digits_one_line in E as [-> Hds].
  destruct ds as [|d ds]; [intros H; symmetry in H; eauto|].
  intros H; inversion H; subst. exists (DOT :: d :: ds). split; [reflexivity|].
  apply one_line_cons; [discriminate|exact Hds].
Qed.

Lemma match_exp_one_line s ex r :
  match_exp s = (ex, r) -> exists p, s = p ++ r /\ one_line p.
Proof.
  assert (H0 : forall (ex : option (bool * str)) r, (ex, r) = (None, s) ->
                 exists p, s = p ++ r /\ one_line p).
  { intros ? ? H; inversion H; subst. exists []. split; [reflexivity|constructor]. }
  destruct s as [|c s]; cbn [match_exp]; [intros H; symmetry in H; eauto|].
  destruct (N.eqb c 101 || N.eqb c 69) eqn:Ec;
    [|intros H; symmetry in H; eauto].
  assert (Hc : c <> newline).
  { intros ->. discriminate. }
  assert (Hsign : exists neg sg r1 ,
            match s with
            | sg :: r1 =>
                if N.eqb sg MINUS then (true, r1)
                else if N.eqb sg PLUS then (false, r1)
                else (false, s)
            | [] => (false, s)
            end = (neg, r1) /\ s = sg ++ r1 /\ one_line sg).
  { destruct s as [|sg r1].
    - exists false, [], []. split_and!; [reflexivity..|constructor].
    - destruct (N.eqb_spec sg MINUS) as [->|].
      + exists true, [MINUS], r1. split_and!; [reflexivity..|].
        apply one_line_cons; [discriminate|constructor].
      + destruct (N.eqb_spec sg PLUS) as [->|].
        * exists false, [PLUS], r1. split_and!; [reflexivity..|].
          apply one_line_cons; [discriminate|constructor].
        * exists false, [], (sg :: r1). split_and!; [reflexivity..|constructor]. }
  destruct Hsign as (neg & sg & r1 & -> & Hs & Hsg).
  destruct (span_digits r1) as [ds r'] eqn:E.
  apply span_digits_one_line in E as [-> Hds].
  destruct ds as [|d ds]; [intros H; symmetry in H; eauto|].
  intros H; inversion H; subst. exists (c :: sg ++ d :: ds).
  split; [simpl; rewrite <- app_assoc; reflexivity|].
  apply one_line_cons; [exact Hc|]. apply one_line_app; assumption.
Qed.

Lemma match_number_one_line s v rest :
  match_number s = Some (v, rest) -> exists p, s = p ++ rest /\ one_line p.
Proof.
  unfold match_number.
  assert (Hsign : exists neg sg s1,
            match s with
            | c :: r => if N.eqb c MINUS then (true, r) else (false, s)
            | [] => (false, s)
            end = (neg, s1) /\ s = sg ++ s1 /\ one_line sg).
  { destruct s as [|c r].
    - exists false, [], []. split_and!; [reflexivity..|constructor].
    - destruct (N.eqb_spec c MINUS) as [->|].
      + exists true, [MINUS], r. split_and!; [reflexivity..|].
        apply one_line_cons; [discriminate|constructor].
      + exists false, [], (c :: r). split_and!; [reflexivity..|constructor]. }
  destruct Hsign as (neg & sg & s1 & -> & -> & Hsg).
  destruct (match_integer s1) as [[ip s2]|] eqn:E1; [|discriminate].
  apply match_integer_one_line in E1 as [-> Hip].
  destruct (match_frac s2) as [fd s3] eqn:E2.
  apply match_frac_one_line in E2 as (p2 & -> & Hp2).
  destruct (match_exp s3) as [ex s4] eqn:E3.
  apply match_exp_one_line in E3 as (p3 & -> & Hp3).
  intros H.
  assert (rest = s4) as ->.
  { destruct fd, ex; inversion H; reflexivity. }
  exists (sg ++ ip ++ p2 ++ p3). split.
  - rewrite <- !app_assoc. reflexivity.
  - repeat apply one_line_app; assumption.
Qed.

Lemma scan_once_float_one_line s f rest :
  finite f = true ->
  scan_once 1 s = POk (JFloat f, rest) ->
  exists p, s = p ++ rest /\ one_line p.
Proof.
  intros Hf. destruct s as [|c r]; [discriminate|]. cbn [scan_once].
  destruct (N.eqb c QUOTE).
  { destruct (scanstring r) as [[? ?]| |]; discriminate. }
  destruct (N.eqb c LBRACE).
  { destruct (skip_ws r) as [|c' r']; [discriminate|].
    destruct (N.eqb c' RBRACE); [discriminate|].
    destruct (N.eqb c' QUOTE); discriminate. }
  destruct (N.eqb c LBRACKET).
  { destruct (skip_ws r) as [|c' r']; [discriminate|].
    destruct (N.eqb c' RBRACKET); discriminate. }
  unfold scan_scalar.
  destruct (strip_prefix lit_null (c :: r)); [discriminate|].
  destruct (strip_prefix lit_true (c :: r)); [discriminate|].
  destruct (strip_prefix lit_false (c :: r)); [discriminate|].
  destruct (match_number (c :: r)) as [[v rest']|] eqn:E.
  { intros H; inversion H; subst. eapply match_number_one_line, E. }
  destruct (strip_prefix lit_NaN (c :: r)).
  { intros H; inversion H; subst. discriminate. }
  destruct (strip_prefix lit_Infinity (c :: r)).
  { intros H; inversion H; subst. discriminate. }
  destruct (strip_prefix lit_neg_Infinity (c :: r)); [|discriminate].
  intros H; inversion H; subst. discriminate.
Qed.

Lemma escape_char_one_line c : one_line (escape_char c).
Proof.
  unfold escape_char.
  repeat match goal with
         | |- context [N.eqb c ?k] => destruct (N.eqb_spec c k)
         end;
    try (repeat (apply one_line_cons; [discriminate|]); constructor).
  assert (Hhex : forall n, hex_digit n <> newline).
  { intros m. unfold hex_digit, newline.
    destruct (N.ltb m 10); lia. }
  destruct (N.ltb c 32).
  - repeat (apply one_line_cons; [first [discriminate | apply Hhex]|]).
    constructor.
  - apply one_line_cons; [assumption|constructor].
Qed.

Lemma encode_basestring_one_line s : one_line (encode_basestring s).
Proof.
  unfold encode_basestring. apply one_line_cons; [discriminate|].
  apply one_line_app; [|apply one_line_cons; [discriminate|constructor]].
  induction s as [|c s IH]; [constructor|]. simpl.
  apply one_line_app; [apply escape_char_one_line|exact IH].
Qed.

Lemma uint_chars_one_line u : one_line (uint_chars u).
Proof.
  induction u; cbn [uint_chars]; try constructor;
    try discriminate; assumption.
Qed.

Lemma int_repr_one_line z : one_line (int_repr z).
Proof.
  unfold int_repr. destruct (Z.to_int z).
  - apply uint_chars_one_line.
  - apply one_line_cons; [discriminate|apply uint_chars_one_line].
Qed.

Lemma join_one_line sep items :
  one_line sep -> Forall one_line items -> one_line (join sep items).
Proof.
  intros Hsep H. induction H as [|x l Hx Hl IH]; [constructor|].
  cbn [join]. destruct l as [|y l]; [exact Hx|].
  apply one_line_app; [exact Hx|]. apply one_line_app; [exact Hsep|exact IH].
Qed.

Lemma float_repr_one_line float_repr f :
  finite f = true -> reads_back float_repr f -> one_line (float_repr f).
Proof.
  intros Hf Hr. specialize (Hr [] I).
  apply scan_once_float_one_line in Hr as (p & Hp & Hl); [|exact Hf].
  rewrite !app_nil_r in Hp. rewrite Hp. exact Hl.
Qed.

Lemma dumps_one_line float_repr v :
  (forall f, In f (floats_of v) -> reads_back float_repr f) ->
  one_line (dumps float_repr v).
Proof.
  induction v as [| b | z | f | s | l IH | d IH] using json_rect'; intros Hfl.
  - repeat (apply one_line_cons; [discriminate|]); constructor.
  - destruct b; repeat (apply one_line_cons; [discriminate|]); constructor.
  - apply int_repr_one_line.
  - destruct f as [sg | [|] | | sg m e]; cbn [dumps floatstr];
      try (repeat (apply one_line_cons; [discriminate|]); constructor).
    + apply float_repr_one_line; [reflexivity|]. apply Hfl. left. reflexivity.
    + apply float_repr_one_line; [reflexivity|]. apply Hfl. left. reflexivity.
  - apply encode_basestring_one_line.
  - cbn [dumps]. apply one_line_cons; [discriminate|].
    apply one_line_app; [|apply one_line_cons; [discriminate|constructor]].
    apply join_one_line.
    { repeat (apply one_line_cons; [discriminate|]); constructor. }
    apply Forall_map. cbn [floats_of] in Hfl.
    induction IH as [|x l Hx Hl IHl]; constructor.
    + apply Hx. intros f Hf. apply Hfl. simpl. apply in_or_app. left. exact Hf.
    + apply IHl. intros f Hf. apply Hfl. simpl. apply in_or_app. right. exact Hf.
  - cbn [dumps]. apply one_line_cons; [discriminate|].
    apply one_line_app; [|apply one_line_cons; [discriminate|constructor]].
    apply join_one_line.
    { repeat (apply one_line_cons; [discriminate|]); constructor. }
    apply Forall_map. cbn [floats_of] in Hfl.
    induction IH as [|x l Hx Hl IHl]; constructor.
    + apply one_line_app; [apply encode_basestring_one_line|].
      apply one_line_app.
      { repeat (apply one_line_cons; [discriminate|]); constructor. }
      apply Hx. intros f Hf. apply Hfl. simpl. apply in_or_app. left. exact Hf.
    + apply IHl. intros f Hf. apply Hfl. simpl. apply in_or_app. right. exact Hf.
Qed.


(** *** The patterns of [read_hotwords_raw] *)

Lemma startswith_app s p : startswith s p = true <-> exists r, s = p ++ r.
Proof.
  unfold startswith. destruct (strip_prefix p s) as [r|] eqn:E.
  - apply strip_prefix_app in E. split; [eauto|reflexivity].
  - split; [discriminate|]. intros [r Hr].
    apply strip_prefix_app in Hr. congruence.
Qed.

Lemma is_substring_drop needle s j :
  is_substring needle s = false -> startswith (drop j s) needle = false.
Proof.
  revert j; induction s as [|c s IH]; intros j H.
  - rewrite drop_nil. simpl in H. apply orb_false_elim in H as [H _]. exact H.
  - cbn [is_substring] in H. apply orb_false_elim in H as [H1 H2].
    destruct j as [|j]; [exact H1|]. apply IH, H2.
Qed.

Lemma is_substring_app needle a b : is_substring needle (a ++ needle ++ b) = true.
Proof.
  induction a as [|c a IH].
  - assert (H : startswith (needle ++ b) needle = true)
      by (apply startswith_app; eauto).
    simpl. destruct (needle ++ b); simpl in *; rewrite H; reflexivity.
  - cbn [app is_substring]. rewrite IH. apply orb_true_r.
Qed.

(** No occurrence of the key starts inside [pre] when [pre] does not
    contain it, whatever follows the key. *)
Lemma key_not_before pre rest j :
  is_substring hotWordList pre = false -> (j < length pre)%nat ->
  startswith (drop j (pre ++ hotWordList ++ rest)) hotWordList = false.
Proof.
  intros Hpre Hj.
  destruct (startswith (drop j (pre ++ hotWordList ++ rest)) hotWordList)
    eqn:E; [exfalso|reflexivity].
  rewrite drop_app_le in E by lia.
  pose proof (is_substring_drop _ _ j Hpre) as Hq.
  set (q := drop j pre) in *.
  assert (Hm : (0 < length q)%nat) by (unfold q; rewrite length_drop; lia).
  destruct (le_lt_dec 11 (length q)) as [Hlong|Hshort].
  - apply startswith_app in E as [r Hr].
    assert (Hk : take 11 (q ++ hotWordList ++ rest) = hotWordList)
      by (rewrite Hr; reflexivity).
    rewrite take_app_le in Hk by lia.
    assert (startswith q hotWordList = true); [|congruence].
    apply startswith_app. exists (drop 11 q).
    rewrite <- Hk. symmetry. apply take_drop.
  - pose proof (key_does_not_overlap _ (length q) E ltac:(lia)) as H.
    rewrite drop_app_length in H.
    assert (startswith (hotWordList ++ rest) hotWordList = true); [|congruence].
    apply startswith_app. eauto.
Qed.

Lemma findall_from_skip matcher pre s :
  (forall j, (j < length pre)%nat -> matcher (drop j (pre ++ s)) = None) ->
  findall_from matcher (pre ++ s) 0 = findall_from matcher s 0.
Proof.
  induction pre as [|c pre IH]; intros H; [reflexivity|].
  cbn [app findall_from].
  pose proof (H 0%nat ltac:(simpl; lia)) as H0. cbn [drop app] in H0.
  rewrite H0. apply IH.
  intros j Hj. apply (H (S j)). simpl; lia.
Qed.

Lemma findall_from_none matcher s :
  (forall j, matcher (drop j s) = None) -> findall_from matcher s 0 = [].
Proof.
  induction s as [|c s IH]; intros H; [reflexivity|].
  cbn [findall_from]. pose proof (H 0%nat) as H0. cbn [drop] in H0.
  rewrite H0. apply IH.
  intros j. apply (H (S j)).
Qed.

Lemma lazy_until_first stop a b :
  stop b = true ->
  (forall j, (j < length a)%nat -> stop (drop j (a ++ b)) = false) ->
  lazy_until stop (a ++ b) = Some (length a).
Proof.
  intros Hb. induction a as [|c a IH]; intros H.
  - simpl. destruct b; simpl; rewrite Hb; reflexivity.
  - cbn [app lazy_until length].
    pose proof (H 0%nat ltac:(simpl; lia)) as H0. cbn [drop app] in H0.
    rewrite H0.
    rewrite IH; [reflexivity|].
    intros j Hj. apply (H (S j)). simpl; lia.
Qed.

Lemma match_standard_needs_key s :
  startswith s hotWordList = false -> match_standard s = None.
Proof.
  intros H. unfold match_standard.
  destruct (strip_prefix (hotWordList ++ [newline; LBRACKET]) s) as [r|] eqn:E;
    [|reflexivity].
  apply strip_prefix_app in E.
  assert (startswith s hotWordList = true); [|congruence].
  apply startswith_app. rewrite E, <- app_assoc. eauto.
Qed.

Lemma match_compact_needs_key s :
  startswith s hotWordList = false -> match_compact s = None.
Proof.
  intros H. unfold match_compact.
  destruct (strip_prefix (hotWordList ++ [LBRACKET]) s) as [r|] eqn:E;
    [|reflexivity].
  apply strip_prefix_app in E.
  assert (startswith s hotWordList = true); [|congruence].
  apply startswith_app. rewrite E, <- app_assoc. eauto.
Qed.

(** The standard pattern, at the key, captures a one-line array that is
    followed by a line break. *)
Lemma match_standard_one_line body post :
  one_line body ->
  match_standard
    (hotWordList ++ newline :: (LBRACKET :: body ++ [RBRACKET])
       ++ newline :: post)
  = Some (LBRACKET :: body ++ [RBRACKET],
          (length hotWordList + 1 + S (S (length body)) + 1)%nat).
Proof.
  intros Hbody. unfold match_standard.
  assert (E : strip_prefix (hotWordList ++ [newline; LBRACKET])
                (hotWordList ++ newline :: (LBRACKET :: body ++ [RBRACKET])
                   ++ newline :: post)
              = Some (body ++ RBRACKET :: newline :: post)).
  { apply strip_prefix_app. rewrite <- !app_assoc. cbn [app].
    rewrite <- app_assoc. reflexivity. }
  rewrite E.
  rewrite (lazy_until_first _ body (RBRACKET :: newline :: post)).
  - rewrite take_app_ge by lia.
    replace (S (length body) - length body)%nat with 1%nat by lia.
    reflexivity.
  - reflexivity.
  - intros j Hj. rewrite drop_app_le by lia.
    pose proof (Forall_drop _ j _ Hbody) as Hd.
    destruct (drop j body) as [|c t] eqn:Ed.
    { apply (f_equal length) in Ed. rewrite length_drop in Ed.
      simpl in Ed. lia. }
    apply Forall_cons in Hd as [_ Ht].
    unfold startswith. cbn [app strip_prefix].
    destruct (N.eqb RBRACKET c); [|reflexivity].
    destruct t as [|c' t']; cbn [app].
    + reflexivity.
    + apply Forall_cons in Ht as [Hc' _].
      destruct (N.eqb_spec newline c'); [congruence|reflexivity].
Qed.


(** *** The lines of the fallback *)

Lemma split_from_substring sep s : forall cur line,
  In line (split_from sep s cur) -> exists a b, cur ++ s = a ++ line ++ b.
Proof.
  induction s as [|c s IH]; intros cur line; cbn [split_from].
  - intros [<-|[]]. exists [], []. rewrite app_nil_r. reflexivity.
  - destruct (N.eqb c sep).
    + intros [<-|H].
      * exists [], (c :: s). reflexivity.
      * apply IH in H as (a & b & Hab). exists (cur ++ c :: a), b.
        simpl in Hab. rewrite Hab, <- app_assoc. reflexivity.
    + intros H. apply IH in H as (a & b & Hab). exists a, b.
      rewrite <- Hab, <- app_assoc. reflexivity.
Qed.

Lemma scan_lines_needs_key lines :
  ~ In hotWordList lines -> scan_lines lines = None.
Proof.
  induction lines as [|line lines IH]; intros H; [reflexivity|].
  cbn [scan_lines].
  rewrite IH by (intros Hin; apply H; right; exact Hin).
  destruct lines as [|next_line rest]; [reflexivity|].
  rewrite bool_decide_eq_false_2; [reflexivity|].
  intros ->. apply H. left. reflexivity.
Qed.

Lemma io_bind_lift {A B} (r : res A) (k : A -> io B) w :
  (lift r ≫= k) w = match r with Ok a => k a w | Raise e => (w, Raise e) end.
Proof. reflexivity. Qed.


(** X17. When the text does not contain the key [hotWordList],
    [read_hotwords_raw] returns [None]. *)
Theorem read_hotwords_raw_without_key content w :
  is_substring hotWordList content = false ->
  read_hotwords_raw (Some content) w = (w, Ok None).
Proof.
  intros H. cbn [read_hotwords_raw].
  rewrite (findall_from_none match_standard)
    by (intros j; apply match_standard_needs_key, is_substring_drop, H).
  rewrite (findall_from_none match_compact)
    by (intros j; apply match_compact_needs_key, is_substring_drop, H).
  rewrite !io_bind_lift. cbn [first_nonempty_list].
  rewrite scan_lines_needs_key; [reflexivity|].
  intros Hin. apply split_from_substring in Hin as (a & b & Hab).
  change ([] ++ content) with content in Hab.
  rewrite Hab, is_substring_app in H. discriminate.
Qed.

Lemma read_hotwords_raw_without_key_witness :
  is_substring hotWordList (s2l "clipboardTempList[]"%string) = false /\
  read_hotwords_raw (Some (s2l "clipboardTempList[]"%string)) (world_of [])
  = (world_of [], Ok None).
Proof.
  split; [reflexivity|].
  apply read_hotwords_raw_without_key. reflexivity.
Defined.

(** X18. A non-empty list written by [dumps] on a line of its own after the
    first line [hotWordList] is read back by [read_hotwords_raw]: the
    encoder writes no line break, so the first pattern captures the whole
    array. *)
Theorem read_hotwords_raw_reads_dumps float_repr pre x l post w :
  is_substring hotWordList pre = false ->
  wf (JList (x :: l)) = true ->
  (forall f, In f (floats_of (JList (x :: l))) -> reads_back float_repr f) ->
  read_hotwords_raw
    (Some (pre ++ hotWordList
           ++ newline :: dumps float_repr (JList (x :: l)) ++ newline :: post))
    w
  = (w, Ok (Some (x :: l))).
Proof.
  intros Hpre Hwf Hfl.
  pose proof (dumps_one_line float_repr _ Hfl) as Hline.
  pose proof (loads_dumps float_repr _ Hwf Hfl) as Hloads.
  cbn [dumps] in Hline, Hloads |- *.
  set (body := join item_separator (map (dumps float_repr) (x :: l))) in *.
  assert (Hbody : one_line body).
  { apply Forall_cons in Hline as [_ Hline].
    apply Forall_app in Hline as [Hline _]. exact Hline. }
  cbn [read_hotwords_raw].
  rewrite (findall_from_skip match_standard).
  2:{ intros j Hj. apply match_standard_needs_key, key_not_before; assumption. }
  assert (Hall : exists rest,
    findall_from match_standard
      (hotWordList ++ newline :: (LBRACKET :: body ++ [RBRACKET])
         ++ newline :: post) 0
    = (LBRACKET :: body ++ [RBRACKET]) :: rest).
  { pose proof (match_standard_one_line body post Hbody) as Hm.
    remember (hotWordList ++ newline :: (LBRACKET :: body ++ [RBRACKET])
                ++ newline :: post) as text eqn:Et.
    destruct text as [|c text']; [discriminate|].
    cbn [findall_from]. rewrite Hm. eauto. }
  destruct Hall as [rest ->].
  rewrite io_bind_lift. cbn [first_nonempty_list]. rewrite Hloads.
  reflexivity.
Qed.

Lemma read_hotwords_raw_reads_dumps_witness :
  is_substring hotWordList (s2l "mmkv"%string) = false /\
  wf (JList [entry_bar]) = true /\
  (forall f, In f (floats_of (JList [entry_bar])) ->
     reads_back repr_one_half f) /\
  read_hotwords_raw
    (Some (s2l "mmkv"%string ++ hotWordList
           ++ newline :: dumps repr_one_half (JList [entry_bar])
           ++ newline :: clipboardTempList))
    (world_of [])
  = (world_of [], Ok (Some [entry_bar])).
Proof.
  assert (H : forall f, In f (floats_of (JList [entry_bar])) ->
                reads_back repr_one_half f) by (intros f []).
  split; [reflexivity|]. split; [reflexivity|]. split; [exact H|].
  exact (read_hotwords_raw_reads_dumps repr_one_half (s2l "mmkv"%string)
           entry_bar [] clipboardTempList (world_of [])
           eq_refl eq_refl H).
Defined.

End ReadFacts.
